(** * Face-swap pipeline (face_swap_ml.py, face_swap.py, setup_models.py):
    a shallow embedding

    The raw-inference pipeline [RoopCore] is glue around OpenCV, NumPy,
    MediaPipe and ONNX Runtime.  The embedding keeps the glue as it is
    written: NumPy's float32/float64 arithmetic is IEEE-754 arithmetic on
    [spec_float], uint8 pixels are bytes, images are nested lists, and the
    calls that leave the program (file reads, the detector, the estimator,
    the two ONNX sessions, file writes) are events of a small trace-and-
    exception monad.  The routines of the libraries whose pixel-level
    results the program never inspects are fields of one record, [Lib].
    The download script runs on a state of files, directories and a log,
    with the network and the file system's refusals in a record, [World]. *)

From Stdlib Require Import ZArith QArith Qround Lia Lqa Bool String.
From Stdlib Require Import Strings.Byte DecimalString.
From Stdlib Require Import Floats.SpecFloat.
From stdpp Require Import base list strings gmap.

Local Open Scope Z_scope.

(** ** IEEE-754 arithmetic *)

Module Fp.

(** A binary format: mantissa width (hidden bit included) and the
    exponent of the infinities. *)
Record fmt := { prec : Z; emax : Z }.

Definition binary32 : fmt := {| prec := 24; emax := 128 |}.
Definition binary64 : fmt := {| prec := 53; emax := 1024 |}.

Definition add (f : fmt) : spec_float -> spec_float -> spec_float :=
  SFadd (prec f) (emax f).
Definition sub (f : fmt) : spec_float -> spec_float -> spec_float :=
  SFsub (prec f) (emax f).
Definition mul (f : fmt) : spec_float -> spec_float -> spec_float :=
  SFmul (prec f) (emax f).
Definition div (f : fmt) : spec_float -> spec_float -> spec_float :=
  SFdiv (prec f) (emax f).

(** An integer, rounded to the format (exact below 2^prec). *)
Definition of_Z (f : fmt) (z : Z) : spec_float :=
  binary_normalize (prec f) (emax f) z 0 false.

(** The decimal literal [p/q] of the program text, for [p] and [q] that
    the format holds exactly: one correctly rounded division. *)
Definition lit (f : fmt) (p q : Z) : spec_float :=
  div f (of_Z f p) (of_Z f q).

(** [astype] between float widths: round to the target format. *)
Definition cast (f : fmt) (x : spec_float) : spec_float :=
  match x with
  | S754_finite s m e => binary_round (prec f) (emax f) s m e
  | _ => x
  end.

(** Round toward zero to an integer (the C conversion behind
    [astype(np.uint8)]); zero for infinities and NaN. *)
Definition trunc (x : spec_float) : Z :=
  match x with
  | S754_finite s m e =>
      let a := match e with
               | Zneg k => Z.shiftr (Zpos m) (Zpos k)
               | _ => Z.shiftl (Zpos m) e
               end in
      if s then - a else a
  | _ => 0
  end.

(** Round to the nearest integer, ties to even ([cvRound]). *)
Definition rint (x : spec_float) : Z :=
  match x with
  | S754_finite s m e =>
      let a := match e with
               | Zneg k =>
                   let q := Z.shiftr (Zpos m) (Zpos k) in
                   let r := Zpos m - Z.shiftl q (Zpos k) in
                   let half := Z.shiftl 1 (Zpos k - 1) in
                   match r ?= half with
                   | Lt => q
                   | Gt => q + 1
                   | Eq => if Z.even q then q else q + 1
                   end
               | _ => Z.shiftl (Zpos m) e
               end in
      if s then - a else a
  | _ => 0
  end.

Definition ltb (x y : spec_float) : bool := SFltb x y.

(** [np.clip(x, lo, None)] and [np.clip(x, lo, hi)] on one element: NaN
    passes through. *)
Definition clip_lo (lo x : spec_float) : spec_float :=
  if ltb x lo then lo else x.
Definition clip (lo hi x : spec_float) : spec_float :=
  if ltb x lo then lo else if ltb hi x then hi else x.

End Fp.

Abbreviation F := spec_float.
Abbreviation b32 := Fp.binary32.
Abbreviation b64 := Fp.binary64.

(** ** Pixels and images *)

(** A uint8 sample. *)
Abbreviation u8 := byte.

Definition u8_to_Z (b : u8) : Z := Z.of_N (Byte.to_N b).

(** Conversion of an integer to uint8: exact in range, wrapping outside. *)
Definition u8_of_Z (z : Z) : u8 :=
  match Byte.of_N (Z.to_N (z mod 256)) with
  | Some b => b
  | None => x00
  end.

(** [saturate_cast<uchar>] of OpenCV. *)
Definition u8_saturate (z : Z) : u8 :=
  u8_of_Z (Z.max 0 (Z.min 255 z)).

(** uint8 to float: always exact. *)
Definition u8_to_F (f : Fp.fmt) (b : u8) : F := Fp.of_Z f (u8_to_Z b).

(** [astype(np.uint8)] of a float sample. *)
Definition F_to_u8 (x : F) : u8 := u8_of_Z (Fp.trunc x).

(** Three interleaved channels, in storage order. *)
Definition px3 (A : Type) : Type := (A * A * A)%type.

Definition map3 {A B} (f : A -> B) (p : px3 A) : px3 B :=
  let '(a, b, c) := p in (f a, f b, f c).

Definition zip3 {A B C} (f : A -> B -> C) (p : px3 A) (q : px3 B) : px3 C :=
  let '(a, b, c) := p in let '(a', b', c') := q in (f a a', f b b', f c c').

(** A single-channel array and a three-channel image, row-major. *)
Definition plane (A : Type) : Type := list (list A).
Definition image (A : Type) : Type := list (list (px3 A)).

(** [arr.shape[:2]]: rows, then columns. *)
Definition shape {A} (a : list (list A)) : nat * nat :=
  (length a, length (hd [] a)).

(** All rows as long as the first, as in every NumPy array. *)
Definition rect {A} (a : list (list A)) : Prop :=
  Forall (fun r => length r = snd (shape a)) a.

Definition at2 {A} (a : list (list A)) (y x : nat) : option A :=
  match a !! y with
  | Some r => r !! x
  | None => None
  end.

(** Elementwise map and binary operation on 2-D arrays. *)
Definition map2d {A B} (f : A -> B) (a : list (list A)) : list (list B) :=
  (fun r : list A => f <$> r) <$> a.

Definition zip2d {A B C} (f : A -> B -> C)
    (a : list (list A)) (b : list (list B)) : list (list C) :=
  zip_with (zip_with f) a b.

(** Build an [h] by [w] array from its samples; [f x y] has the column
    first, as OpenCV addresses points. *)
Definition tabulate2d {A} (h w : nat) (f : nat -> nat -> A) : list (list A) :=
  (fun y => (fun x => f x y) <$> seq 0 w) <$> seq 0 h.

(** [cv2.cvtColor] between BGR and RGB: the outer channels change places. *)
Definition swap_rb {A} (p : px3 A) : px3 A :=
  let '(a, b, c) := p in (c, b, a).

(** [np.transpose(img, (2, 0, 1))] and [np.transpose(t, (1, 2, 0))]. *)
Definition to_planes {A} (img : image A) : px3 (plane A) :=
  (map2d (fun p => fst (fst p)) img,
   map2d (fun p => snd (fst p)) img,
   map2d (fun p => snd p) img).

Definition of_planes {A} (t : px3 (plane A)) : image A :=
  let '(a, b, c) := t in
  zip_with (fun ab r3 => zip_with (fun xy z => (fst xy, snd xy, z)) ab r3)
    (zip_with (fun r1 r2 => zip_with pair r1 r2) a b) c.

(** ** Geometry *)

(** A 2-D point, [x] first. *)
Definition pt : Type := (F * F)%type.

(** A MediaPipe normalized landmark (the program reads [x] and [y] only). *)
Record landmark := { lm_x : F; lm_y : F }.

(** A 2x3 affine matrix of doubles, [[m00 m01 m02] [m10 m11 m12]]. *)
Record affine := {
  m00 : F; m01 : F; m02 : F;
  m10 : F; m11 : F; m12 : F }.

(** [ARC_FACE_DST]: the literals are doubles stored into a float32 array. *)
Definition arc_lit (p : Z) : F := Fp.cast b32 (Fp.lit b64 p 10000).

Definition ARC_FACE_DST : list pt :=
  [ (arc_lit 382946, arc_lit 516963);
    (arc_lit 735318, arc_lit 515014);
    (arc_lit 560252, arc_lit 717366);
    (arc_lit 415493, arc_lit 923655);
    (arc_lit 707299, arc_lit 922041) ].

(** [ARC_FACE_DST * (128.0 / 112.0)]: the Python float is divided in
    double precision and enters the float32 product as a float32. *)
Definition dst_128 : list pt :=
  let k := Fp.cast b32 (Fp.lit b64 128 112) in
  fmap (fun p => (Fp.mul b32 (fst p) k, Fp.mul b32 (snd p) k)) ARC_FACE_DST.

(** ** Effects: a trace of outside calls, and exceptions *)

Inductive exn :=
| CvError (msg : string)       (* cv2.error *)
| IndexError
| SystemExit (code : Z).

Inductive res (A : Type) :=
| Ok (a : A)
| Raise (e : exn).
Arguments Ok {A} a.
Arguments Raise {A} e.

(** NCHW float32 tensors with three channels, and a batch of vectors. *)
Definition blob : Type := list (px3 (plane F)).
Definition vecs : Type := list (list F).

Inductive event :=
| EvImread (path : string)
| EvDetect (rgb : image u8)                  (* FaceLandmarker.detect *)
| EvEstimate (src dst : list pt)             (* cv2.estimateAffinePartial2D *)
| EvArcface (input : blob)                   (* arcface.run *)
| EvInswapper (input : blob) (embed : vecs)  (* inswapper.run *)
| EvFaceAnalysis (img : image u8)            (* FaceAnalysis.get *)
| EvSwapperGet (img : image u8)              (* INSwapper.get *)
| EvMakedirs (path : string)
| EvImwrite (path : string) (img : image u8)
| EvPrint (msg : string).

Definition M (A : Type) : Type := list event -> res A * list event.

Definition ret {A} (a : A) : M A := fun tr => (Ok a, tr).

Definition bind {A B} (c : M A) (k : A -> M B) : M B :=
  fun tr =>
    match c tr with
    | (Ok a, tr') => k a tr'
    | (Raise e, tr') => (Raise e, tr')
    end.

Definition raise {A} (e : exn) : M A := fun tr => (Raise e, tr).

Definition emit (e : event) : M unit := fun tr => (Ok tt, tr ++ [e]).

Definition lift {A} (r : res A) : M A := fun tr => (r, tr).

Notation "'let*' x ':=' c 'in' k" := (bind c (fun x => k))
  (at level 10, x pattern, c at level 100, k at level 200).
Notation "'let*' ' p ':=' c 'in' k" :=
  (bind c (fun x => match x with p => k end))
  (at level 10, p pattern, c at level 100, k at level 200).
Notation "c ';;' k" := (bind c (fun _ => k))
  (at level 100, k at level 200, right associativity).

Fixpoint mapM {A B} (f : A -> M B) (l : list A) : M (list B) :=
  match l with
  | [] => ret []
  | a :: l' => let* b := f a in let* bs := mapM f l' in ret (b :: bs)
  end.

(** Run from the empty trace. *)
Definition run {A} (c : M A) : res A * list event := c [].

(** Exit status of the interpreter: 0 when the script runs off its end,
    the code of [sys.exit], 1 for any other uncaught exception. *)
Definition exit_status {A} (r : res A) : Z :=
  match r with
  | Ok _ => 0
  | Raise (SystemExit c) => c
  | Raise _ => 1
  end.

(** ** The libraries *)

(** What the program calls and does not define.  [remap3] and [remap1] give
    the sample [cv2.warpAffine] computes for one destination pixel (border
    value 0); [bgr2lab] and [lab2bgr] are the per-pixel 8-bit conversions of
    [cv2.cvtColor]; [GaussianBlur] filters one channel; [imread] is [None]
    where [cv2.imread] returns [None]; the estimator may raise, and may
    return [None] for the matrix. *)
Record Lib := {
  imread : string -> option (image u8);
  detect : image u8 -> list (list landmark);
  estimateAffinePartial2D : list pt -> list pt -> res (option affine);
  invertAffineTransform : affine -> affine;
  remap3 : image u8 -> affine -> nat -> nat -> px3 u8;
  remap1 : plane u8 -> affine -> nat -> nat -> u8;
  bgr2lab : px3 u8 -> px3 u8;
  lab2bgr : px3 u8 -> px3 u8;
  meanStdDev : image F -> px3 F * px3 F;
  GaussianBlur : plane u8 -> nat * nat -> F -> plane u8;
  rectangle : plane u8 -> Z * Z -> Z * Z -> u8 -> Z -> plane u8;
  linalg_norm : vecs -> F;
  arcface_run : blob -> vecs;
  inswapper_run : blob -> vecs -> blob
}.

(** [cv2.warpAffine(src, M, (w, h))]. *)
Definition warpAffine3 (L : Lib) (src : image u8) (m : affine) (w h : nat)
  : image u8 :=
  tabulate2d h w (remap3 L src m).

Definition warpAffine1 (L : Lib) (src : plane u8) (m : affine) (w h : nat)
  : plane u8 :=
  tabulate2d h w (remap1 L src m).

(** [cv2.GaussianBlur] on a three-channel image: channel by channel. *)
Definition GaussianBlur3 (L : Lib) (img : image u8) (ksize : nat * nat)
    (sigma : F) : image u8 :=
  of_planes (map3 (fun p => GaussianBlur L p ksize sigma) (to_planes img)).

(** [cv2.addWeighted(a, alpha, b, beta, gamma)] on uint8 samples:
    [saturate_cast<uchar>(a*alpha + b*beta + gamma)], computed in single
    precision and rounded to nearest. *)
Definition addWeighted_px (a : u8) (alpha : F) (b : u8) (beta gamma : F) : u8 :=
  u8_saturate
    (Fp.rint
       (Fp.add b32
          (Fp.add b32 (Fp.mul b32 (u8_to_F b32 a) alpha)
                      (Fp.mul b32 (u8_to_F b32 b) beta))
          gamma)).

Definition addWeighted (a : image u8) (alpha : F) (b : image u8)
    (beta gamma : F) : image u8 :=
  zip2d (zip3 (fun x y => addWeighted_px x alpha y beta gamma)) a b.

(** ** face_swap_ml.py: [RoopCore] *)

Module RoopCore.
Section Core.

Variable L : Lib.

(** The working precision of [float32_array op float64_scalar]: NumPy 1
    computes in float32 (value-based casting), NumPy 2 in float64; the
    program does not pin a version, so it is a parameter. *)
Variable wp : Fp.fmt.

(** Approximate mesh indices: left eye, right eye, nose, left mouth
    corner, right mouth corner. *)
Definition indices : list nat := [468; 473; 1; 61; 291]%nat.

(** [[lm[i].x * w, lm[i].y * h]], a product of doubles stored as
    float32. *)
Definition scale_landmark (h w : nat) (p : landmark) : pt :=
  (Fp.cast b32 (Fp.mul b64 (lm_x p) (Fp.of_Z b64 (Z.of_nat w))),
   Fp.cast b32 (Fp.mul b64 (lm_y p) (Fp.of_Z b64 (Z.of_nat h)))).

(** [lm[i]] raises [IndexError] past the end of the mesh. *)
Definition keypoint (lm : list landmark) (h w : nat) (i : nat) : M pt :=
  match lm !! i with
  | Some p => ret (scale_landmark h w p)
  | None => raise IndexError
  end.

(** [get_landmarks]: [cv2.cvtColor] raises on the [None] an unreadable
    file leaves behind. *)
Definition get_landmarks (img_bgr : option (image u8))
  : M (option (list pt)) :=
  match img_bgr with
  | None => raise (CvError "cvtColor: empty source")
  | Some img =>
      let img_rgb := map2d swap_rb img in
      emit (EvDetect img_rgb) ;;
      match detect L img_rgb with
      | [] => ret None
      | lm :: _ =>
          let '(h, w) := shape img in
          let* kps := mapM (keypoint lm h w) indices in
          ret (Some kps)
      end
  end.

(** The matrix of [estimateAffinePartial2D(...)[0]], with the call
    recorded. *)
Definition estimate (src dst : list pt) : M (option affine) :=
  emit (EvEstimate src dst) ;;
  lift (estimateAffinePartial2D L src dst).

(** [cv2.warpAffine] as called from Python: an image or a matrix that is
    [None] is rejected with [cv2.error] before anything is computed. *)
Definition warp_args (img : option (image u8)) (m : option affine)
  : M (image u8 * affine) :=
  match img, m with
  | Some i, Some a => ret (i, a)
  | _, _ => raise (CvError "warpAffine: bad argument")
  end.

(** [norm_crop]. *)
Definition norm_crop (img : option (image u8)) (landmark : list pt)
    (image_size : nat) : M (image u8 * affine) :=
  let* m := estimate landmark ARC_FACE_DST in
  let* '(i, a) := warp_args img m in
  ret (warpAffine3 L i a image_size image_size, a).

(** [get_embedding]: RGB, plane-major, batch of one, [(v - 127.5) / 128.0]
    in float32, the model, then division by the norm. *)
Definition embed_input (face_img : image u8) : blob :=
  [ map3 (map2d (fun v =>
            Fp.div b32 (Fp.sub b32 (u8_to_F b32 v) (Fp.lit b32 255 2))
                       (Fp.of_Z b32 128)))
         (to_planes (map2d swap_rb face_img)) ].

Definition normalize (embed : vecs) : vecs :=
  let n := linalg_norm L embed in
  map2d (fun v => Fp.div b32 v n) embed.

Definition get_embedding (face_img : image u8) : M vecs :=
  let input := embed_input face_img in
  emit (EvArcface input) ;;
  ret (normalize (arcface_run L input)).

(** [color_transfer]: one LAB channel of one pixel,
    [(v - s_mean) * (t_std / s_std) + t_mean], stored back into the
    float32 array.  The ratio is a quotient of two doubles. *)
Definition transfer_px (v s_mean s_std t_mean t_std : F) : F :=
  let ratio := Fp.div b64 t_std s_std in
  Fp.cast b32
    (Fp.add wp
       (Fp.mul wp (Fp.sub wp (Fp.cast wp v) (Fp.cast wp s_mean))
                  (Fp.cast wp ratio))
       (Fp.cast wp t_mean)).

(** [1e-5]. *)
Definition eps : F := Fp.lit b64 1 100000.

Definition lab_f32 (img : image u8) : image F :=
  map2d (fun p => map3 (u8_to_F b32) (bgr2lab L p)) img.

(** The statistics and the per-channel loop of [color_transfer], up to
    [np.clip(s_lab, 0, 255).astype(np.uint8)]. *)
Definition transfer_lab (source target : image u8) : image u8 :=
  let s_lab := lab_f32 source in
  let t_lab := lab_f32 target in
  let '(s_mean, s_std) := meanStdDev L s_lab in
  let '(t_mean, t_std) := meanStdDev L t_lab in
  let s_std := map3 (Fp.clip_lo eps) s_std in
  let stats := zip3 pair (zip3 pair s_mean s_std) (zip3 pair t_mean t_std) in
  map2d (fun p =>
           zip3 (fun v st =>
                   F_to_u8
                     (Fp.clip (Fp.of_Z b32 0) (Fp.of_Z b32 255)
                        (transfer_px v (fst (fst st)) (snd (fst st))
                                       (fst (snd st)) (snd (snd st)))))
                p stats)
        s_lab.

Definition color_transfer (source target : image u8) : image u8 :=
  map2d (lab2bgr L) (transfer_lab source target).

(** [apply_sharpening]: the unsharp mask; [np.clip(...).astype(np.uint8)]
    leaves a uint8 array as it is. *)
Definition apply_sharpening (img : image u8) : image u8 :=
  let gaussian := GaussianBlur3 L img (0, 0)%nat (Fp.of_Z b64 2) in
  addWeighted img (Fp.lit b32 3 2) gaussian (Fp.lit b32 (-1) 2) (Fp.of_Z b32 0).

(** The swap input: RGB, plane-major, batch of one, scaled to [0, 1]. *)
Definition swap_input (align_tgt : image u8) : blob :=
  [ map3 (map2d (fun v => Fp.div b32 (u8_to_F b32 v) (Fp.of_Z b32 255)))
         (to_planes (map2d swap_rb align_tgt)) ].

(** The swap output: [res_blob[0]] back to HWC, times 255, clipped,
    uint8, BGR. *)
Definition decode_output (t : px3 (plane F)) : image u8 :=
  map2d (fun p =>
           swap_rb
             (map3 (fun v =>
                      F_to_u8
                        (Fp.clip (Fp.of_Z b32 0) (Fp.of_Z b32 255)
                           (Fp.mul b32 v (Fp.of_Z b32 255))))
                   p))
        (of_planes t).

Definition swap_output (res_blob : blob) : M (image u8) :=
  match res_blob with
  | [] => raise IndexError
  | t :: _ => ret (decode_output t)
  end.

(** The soft mask of the paste-back. *)
Definition mask_base : plane u8 := replicate 128 (replicate 128 xff).

Definition soft_mask : plane u8 :=
  GaussianBlur L (rectangle L mask_base (0, 0) (128, 128) x00 10)
               (15, 15)%nat (Fp.of_Z b64 0).

(** [warped_mask.astype(np.float32) / 255.0]. *)
Definition alpha (m : u8) : F := Fp.div b32 (u8_to_F b32 m) (Fp.of_Z b32 255).

(** One channel of [warped_face * mask_f + target_img * (1.0 - mask_f)],
    converted to uint8. *)
Definition blend_px (face : u8) (a : F) (target : u8) : u8 :=
  F_to_u8
    (Fp.add b32 (Fp.mul b32 (u8_to_F b32 face) a)
                (Fp.mul b32 (u8_to_F b32 target)
                            (Fp.sub b32 (Fp.of_Z b32 1) a))).

Definition blend (warped_face : image u8) (warped_mask : plane u8)
    (target_img : image u8) : image u8 :=
  let mask_f := map2d alpha warped_mask in
  zip2d (fun fa t => zip3 (fun f c => blend_px f (snd fa) c) (fst fa) t)
        (zip2d pair warped_face mask_f) target_img.

(** Step 4 of [swap]: warp face and mask back with the inverse matrix and
    blend over the target. *)
Definition paste_back (swapped target_img : image u8) (M_128 : affine)
  : image u8 :=
  let '(h, w) := shape target_img in
  let inv_M := invertAffineTransform L M_128 in
  let warped_face := warpAffine3 L swapped inv_M w h in
  let warped_mask := warpAffine1 L soft_mask inv_M w h in
  blend warped_face warped_mask target_img.

(** [swap]. *)
Definition swap (source_path target_path output_path : string) : M bool :=
  emit (EvImread source_path) ;;
  let source_img := imread L source_path in
  emit (EvImread target_path) ;;
  let target_img := imread L target_path in
  let* src_kps := get_landmarks source_img in
  match src_kps with
  | None => ret false
  | Some src_kps =>
      let* crop := norm_crop source_img src_kps 112 in
      let* source_embed := get_embedding (fst crop) in
      let* tgt_kps := get_landmarks target_img in
      match tgt_kps with
      | None => ret false
      | Some tgt_kps =>
          let* M_128 := estimate tgt_kps dst_128 in
          let* '(target, M_128) := warp_args target_img M_128 in
          let align_tgt := warpAffine3 L target M_128 128 128 in
          let input := swap_input align_tgt in
          emit (EvInswapper input source_embed) ;;
          let* swapped := swap_output (inswapper_run L input source_embed) in
          let swapped := color_transfer swapped align_tgt in
          let swapped := apply_sharpening swapped in
          let final := paste_back swapped target M_128 in
          emit (EvImwrite output_path final) ;;
          emit (EvPrint ("Saved: " ++ output_path)) ;;
          ret true
      end
  end.

(** The script: build [RoopCore] (its sessions are [L]), run [swap], and
    run off the end; the value [swap] returns is dropped. *)
Definition main (source target output : string) : M unit :=
  emit (EvPrint "Loading ArcFace (Analysis)...") ;;
  emit (EvPrint "Loading Inswapper (Swap)...") ;;
  swap source target output ;;
  ret tt.

End Core.
End RoopCore.

(** ** face_swap.py: [FaceSwapPipeline] *)

(** InsightFace as the script uses it: faces are opaque. *)
Record Insight (face : Type) := {
  if_imread : string -> option (image u8);
  app_get : image u8 -> list face;
  swapper_get : image u8 -> face -> face -> image u8;
  dirname : string -> string
}.
Arguments if_imread {face} _ _.
Arguments app_get {face} _ _.
Arguments swapper_get {face} _ _ _ _.
Arguments dirname {face} _ _.

Module FaceSwapPipeline.
Section Pipeline.

Context {face : Type} (I : Insight face).

(** [f"{n}"]. *)
Definition show (n : nat) : string := NilEmpty.string_of_uint (Nat.to_uint n).

(** The line feed inside two of the messages, and the rule printed around
    them. *)
Definition nl : string := String (Ascii.ascii_of_nat 10) EmptyString.
Definition rule : string := "===========================================".

(** The loop over the target faces, threading [result]. *)
Fixpoint swap_all (i : nat) (result : image u8) (src_face : face)
    (tgt_faces : list face) : M (image u8) :=
  match tgt_faces with
  | [] => ret result
  | tgt_face :: rest =>
      emit (EvPrint ("Swapping face " ++ show (i + 1) ++ "...")) ;;
      emit (EvSwapperGet result) ;;
      swap_all (i + 1) (swapper_get I result tgt_face src_face) src_face rest
  end.

Definition swap (source_path target_path output_path : string) : M bool :=
  emit (EvPrint "Reading images...") ;;
  emit (EvImread source_path) ;;
  emit (EvImread target_path) ;;
  match if_imread I source_path with
  | None => emit (EvPrint "Cannot load source image.") ;; ret false
  | Some src_img =>
      match if_imread I target_path with
      | None => emit (EvPrint "Cannot load target image.") ;; ret false
      | Some tgt_img =>
          emit (EvPrint "Detecting faces...") ;;
          emit (EvFaceAnalysis src_img) ;;
          let src_faces := app_get I src_img in
          emit (EvFaceAnalysis tgt_img) ;;
          let tgt_faces := app_get I tgt_img in
          match src_faces with
          | [] => emit (EvPrint "No face detected in source image.") ;;
                  ret false
          | src_face :: _ =>
              match tgt_faces with
              | [] => emit (EvPrint "No face detected in target image.") ;;
                      ret false
              | _ :: _ =>
                  emit (EvPrint ("Source faces detected: "
                                 ++ show (length src_faces))) ;;
                  emit (EvPrint ("Target faces detected: "
                                 ++ show (length tgt_faces))) ;;
                  let* result := swap_all 0 tgt_img src_face tgt_faces in
                  let output_dir := dirname I output_path in
                  (if String.eqb output_dir "" then ret tt
                   else emit (EvMakedirs output_dir)) ;;
                  emit (EvImwrite output_path result) ;;
                  emit (EvPrint (nl ++ "SUCCESS")) ;;
                  emit (EvPrint ("Saved to: " ++ output_path)) ;;
                  emit (EvPrint (rule ++ nl)) ;;
                  ret true
              end
          end
      end
  end.

(** [__init__]: the banner; the models are [I]. *)
Definition init : M unit :=
  emit (EvPrint rule) ;;
  emit (EvPrint "  InsightFace InSwapper - Initializing") ;;
  emit (EvPrint rule) ;;
  emit (EvPrint ("Models loaded successfully." ++ nl)).

(** [main]: [sys.exit(1)] unless [swap] succeeded. *)
Definition main (source target output : string) : M unit :=
  init ;;
  let* success := swap source target output in
  if success then ret tt else raise (SystemExit 1).

End Pipeline.
End FaceSwapPipeline.

(** ** What the program relies on from OpenCV's filter and estimator *)

(** [BORDER_REFLECT_101], the default border of [cv2.GaussianBlur]:
    [... 2 1 | 0 1 2 ... n-1 | n-2 n-3 ...], reflected as often as it
    takes (a walk of period [2(n-1)]). *)
Definition reflect101 (n i : Z) : Z :=
  if n <=? 1 then 0
  else
    let m := 2 * (n - 1) in
    let q := i mod m in
    if q <? n then q else m - q.

(** The source sample a filter tap reads. *)
Definition tap (src : plane u8) (y x : Z) : Q :=
  let '(h, w) := shape src in
  match at2 src (Z.to_nat (reflect101 (Z.of_nat h) y))
                (Z.to_nat (reflect101 (Z.of_nat w) x)) with
  | Some b => inject_Z (u8_to_Z b)
  | None => 0%Q
  end.

(** [k0 * f i + k1 * f (i+1) + ...]. *)
Fixpoint wsum (k : list Q) (f : Z -> Q) (i : Z) : Q :=
  match k with
  | [] => 0%Q
  | c :: k' => (c * f i + wsum k' f (i + 1))%Q
  end.

(** A separable filter with taps [k], centred on [(x, y)]. *)
Definition conv_at (k : list Q) (src : plane u8) (y x : Z) : Q :=
  let r := Z.of_nat (length k / 2) in
  wsum k (fun yy => wsum k (fun xx => tap src yy xx) (x - r)) (y - r).

(** Nearest integer, ties to even. *)
Definition Qrint (q : Q) : Z :=
  let f := Qfloor q in
  match (q - inject_Z f ?= 1 # 2)%Q with
  | Lt => f
  | Gt => f + 1
  | Eq => if Z.even f then f else f + 1
  end.

(** A normalised separable blur of a uint8 channel with taps [k]: the
    weighted mean of the window, rounded and saturated. *)
Definition conv_blur (k : list Q) (src : plane u8) : plane u8 :=
  let '(h, w) := shape src in
  tabulate2d h w (fun x y =>
    u8_saturate (Qrint (conv_at k src (Z.of_nat y) (Z.of_nat x)))).

Fixpoint Qsum (k : list Q) : Q :=
  match k with
  | [] => 0%Q
  | c :: k' => (c + Qsum k')%Q
  end.

(** A smoothing kernel of [2r+1] taps, as [getGaussianKernel] makes them:
    non-negative, of sum one, largest at the centre. *)
Record smoothing_kernel (r : nat) (k : list Q) : Prop := {
  sk_split : exists ka c kb,
      k = ka ++ c :: kb /\ length ka = r /\ length kb = r /\
      Forall (fun q => (q <= c)%Q) k;
  sk_nonneg : Forall (fun q => (0 <= q)%Q) k;
  sk_sum : (Qsum k == 1)%Q
}.

(** What [cv2.rectangle(mask, (0, 0), (128, 128), 0, 10)] does to the
    128x128 mask as far as the program depends on it: the stroke covers the
    four corner pixels, and no pixel further than the thickness from every
    edge is touched. *)
Record border_stroke (before after : plane u8) : Prop := {
  bs_rows : length after = 128%nat;
  bs_cols : Forall (fun r => length r = 128%nat) after;
  bs_corners : forall y x, (y = 0 \/ y = 127)%nat -> (x = 0 \/ x = 127)%nat ->
      at2 after y x = Some x00;
  bs_inside : forall y x, (11 <= y < 117)%nat -> (11 <= x < 117)%nat ->
      at2 after y x = at2 before y x
}.

(** [cv2.estimateAffinePartial2D] asserts that both point sets have the
    same number of points ([CV_Assert(count >= 0 && to.checkVector(2) ==
    count)]). *)
Definition estimator_checks_count (L : Lib) : Prop :=
  forall src dst, length src <> length dst ->
    exists msg, estimateAffinePartial2D L src dst = Raise (CvError msg).

(** The FaceLandmarker model yields the full mesh with the iris points, 478
    landmarks, for each face it reports. *)
Definition full_mesh (L : Lib) : Prop :=
  forall rgb, Forall (fun lm => length lm = 478%nat) (detect L rgb).

(** ** A small world to run the definitions in *)

Module Toy.

Definition face_img : image u8 :=
  [ [ (x10, x20, x30); (x40, x50, x60) ];
    [ (x70, x80, x90); (xa0, xb0, xc0) ] ].

Definition blank_img : image u8 :=
  [ [ (x00, x00, x00); (x00, x00, x00) ];
    [ (x00, x00, x00); (x00, x00, x00) ] ].

Definition read (path : string) : option (image u8) :=
  if String.eqb path "face.png" then Some face_img
  else if String.eqb path "blank.png" then Some blank_img
  else None.

Definition half : F := Fp.lit b64 1 2.

(** One face wherever the first sample is not black. *)
Definition faces (rgb : image u8) : list (list landmark) :=
  match rgb with
  | ((r, _, _) :: _) :: _ =>
      if Byte.eqb r x00 then []
      else [ replicate 478 {| lm_x := half; lm_y := half |} ]
  | _ => []
  end.

Definition unit_affine : affine :=
  {| m00 := Fp.of_Z b64 1; m01 := Fp.of_Z b64 0; m02 := Fp.of_Z b64 0;
     m10 := Fp.of_Z b64 0; m11 := Fp.of_Z b64 1; m12 := Fp.of_Z b64 0 |}.

Definition estimate (src dst : list pt) : res (option affine) :=
  if Nat.eqb (length src) (length dst) then Ok (Some unit_affine)
  else Raise (CvError "estimateAffinePartial2D: point counts differ").

Definition sample3 (src : image u8) (m : affine) (x y : nat) : px3 u8 :=
  default (x00, x00, x00) (at2 src y x).

Definition sample1 (src : plane u8) (m : affine) (x y : nat) : u8 :=
  default x00 (at2 src y x).

(** A stroke of the given thickness centred on the outline of the
    rectangle. *)
Definition stroke (img : plane u8) (p1 p2 : Z * Z) (colour : u8)
    (thickness : Z) : plane u8 :=
  let r := thickness / 2 in
  let near (a b : Z) := (Z.abs (a - b) <=? r) in
  let within (lo hi a : Z) := (lo - r <=? a) && (a <=? hi + r) in
  imap (fun y row =>
    imap (fun x v =>
      let xz := Z.of_nat x in
      let yz := Z.of_nat y in
      if ((near xz (fst p1) || near xz (fst p2))
            && within (snd p1) (snd p2) yz)
         || ((near yz (snd p1) || near yz (snd p2))
            && within (fst p1) (fst p2) xz)
      then colour else v) row) img.

(** Fifteen taps of sum one: a binomial bell padded with zeros. *)
Definition kernel : list Q :=
  [ 0; 0; 0; 0; 1 # 64; 6 # 64; 15 # 64; 20 # 64;
    15 # 64; 6 # 64; 1 # 64; 0; 0; 0; 0 ]%Q.

Definition lib : Lib := {|
  imread := read;
  detect := faces;
  estimateAffinePartial2D := estimate;
  invertAffineTransform := fun m => m;
  remap3 := sample3;
  remap1 := sample1;
  bgr2lab := fun p => p;
  lab2bgr := fun p => p;
  meanStdDev := fun _ =>
    let z := Fp.of_Z b64 0 in let o := Fp.of_Z b64 1 in
    ((z, z, z), (o, o, o));
  GaussianBlur := fun src _ _ => conv_blur kernel src;
  rectangle := stroke;
  linalg_norm := fun _ => Fp.of_Z b32 1;
  arcface_run := fun _ => [ [ Fp.of_Z b32 1 ] ];
  inswapper_run := fun input _ => input
|}.

(** InsightFace with strings for faces. *)
Definition insight : Insight string := {|
  if_imread := read;
  app_get := fun img =>
    match faces img with [] => [] | _ => [ "face"%string ] end;
  swapper_get := fun img _ _ => img;
  dirname := fun _ => ""%string
|}.

End Toy.

(** ** The refine stage as the specification words it *)

(** "Rescale the generated channel by
    [(value - gen_mean) * (ref_std / gen_std) + ref_mean]", in the working
    precision [wp], the ratio of the two statistics being a double. *)
Definition spec_rescale (wp : Fp.fmt)
    (value gen_mean gen_std ref_mean ref_std : F) : F :=
  Fp.cast b32
    (Fp.add wp
       (Fp.mul wp (Fp.sub wp (Fp.cast wp value) (Fp.cast wp gen_mean))
                  (Fp.cast wp (Fp.div b64 ref_std gen_std)))
       (Fp.cast wp ref_mean)).

(** "[gen_std] floored to a small epsilon" (1e-5). *)
Definition spec_floor (gen_std : F) : F :=
  if Fp.ltb gen_std (Fp.lit b64 1 100000) then Fp.lit b64 1 100000
  else gen_std.

(** "Clip to valid range", then store as uint8. *)
Definition spec_clip_u8 (v : F) : u8 :=
  F_to_u8 (if Fp.ltb v (Fp.of_Z b32 0) then Fp.of_Z b32 0
           else if Fp.ltb (Fp.of_Z b32 255) v then Fp.of_Z b32 255 else v).

(** One LAB channel of the colour transfer. *)
Definition spec_color_channel (wp : Fp.fmt) (value : u8)
    (gen_mean gen_std ref_mean ref_std : F) : u8 :=
  spec_clip_u8
    (spec_rescale wp (u8_to_F b32 value) gen_mean (spec_floor gen_std)
                  ref_mean ref_std).

(** "[output = 1.5 x original - 0.5 x blurred], clipped to valid range",
    in exact arithmetic, to the nearest integer. *)
Definition spec_sharpen (original blurred : u8) : u8 :=
  u8_of_Z
    (Z.max 0
       (Z.min 255
          (Qrint ((3 # 2) * inject_Z (u8_to_Z original)
                  - (1 # 2) * inject_Z (u8_to_Z blurred))%Q))).

(** All 256 samples. *)
Definition all_u8 : list u8 := (fun n => u8_of_Z (Z.of_nat n)) <$> seq 0 256.

(** ** Vocabulary for statements about runs *)

(** [c] keeps the property [P] of every recorded call, and its result, when
    it returns one, satisfies [Q]. *)
Definition keeps {A} (P : event -> Prop) (c : M A) (Q : A -> Prop) : Prop :=
  forall tr, Forall P tr ->
    Forall P (snd (c tr)) /\ forall a, fst (c tr) = Ok a -> Q a.

(** The estimator is handed five source points. *)
Definition estimate_gets_five (e : event) : Prop :=
  match e with
  | EvEstimate src _ => length src = 5%nat
  | _ => True
  end.

(** An image is written only as the paste-back of the sharpened,
    colour-matched swap output over the image it was aligned from. *)
Definition written_after_refine (L : Lib) (wp : Fp.fmt) (e : event) : Prop :=
  match e with
  | EvImwrite _ img =>
      exists out tgt m,
        img =
          RoopCore.paste_back L
            (RoopCore.apply_sharpening L
               (RoopCore.color_transfer L wp (RoopCore.decode_output out)
                  (warpAffine3 L tgt m 128 128)))
            tgt m
  | _ => True
  end.

(** Calls of the Aligner's estimator and of the two models. *)
Definition is_alignment_or_inference (e : event) : bool :=
  match e with
  | EvEstimate _ _ | EvArcface _ | EvInswapper _ _ => true
  | _ => false
  end.

(** Calls of the landmark detector. *)
Definition is_detection (e : event) : bool :=
  match e with
  | EvDetect _ => true
  | _ => false
  end.


(** ** setup_models.py *)

Module SetupModels.

(** What [requests.get(url, stream=True)] hands back: whether
    [raise_for_status] objects, the [content-length] header when there is
    one, the chunks [iter_content] yields, and the exception that ends the
    stream early, if any. *)
Record response := {
  status_error : option string;
  content_length : option string;
  body : list (list byte);
  stream_error : option string
}.

(** The world outside the script.  [http_get] is [inl msg] where
    [requests.get] raises; [int_error s] is the message of the [ValueError]
    of [int(s)], [open_error p] that of the [OSError] of [open(p, 'wb')]. *)
Record World := {
  http_get : string -> string + response;
  int_error : string -> option string;
  open_error : string -> option string;
  basename : string -> string;
  join : string -> string -> string
}.

Inductive ev :=
| Get (url : string)
| Say (msg : string).

(** Files with their contents, directories, and what was printed and
    requested. *)
Record state := {
  files : gmap string (list byte);
  dirs : gset string;
  log : list ev
}.

Definition record (e : ev) (st : state) : state :=
  {| files := files st; dirs := dirs st; log := log st ++ [e] |}.

(** [os.path.exists]. *)
Definition exists_ (p : string) (st : state) : bool :=
  bool_decide (is_Some (files st !! p)) || bool_decide (p ∈ dirs st).

(** [open(p, 'wb')]: the file is there and empty. *)
Definition create (p : string) (st : state) : state :=
  {| files := <[p := []]> (files st); dirs := dirs st; log := log st |}.

(** [f.write(chunk)]. *)
Definition append (p : string) (chunk : list byte) (st : state) : state :=
  {| files := alter (fun c => c ++ chunk) p (files st);
     dirs := dirs st; log := log st |}.

(** [os.remove]. *)
Definition remove (p : string) (st : state) : state :=
  {| files := delete p (files st); dirs := dirs st; log := log st |}.

(** [os.makedirs]. *)
Definition makedirs (p : string) (st : state) : state :=
  {| files := files st; dirs := {[p]} ∪ dirs st; log := log st |}.

(** The loop over [iter_content]: empty chunks are skipped. *)
Fixpoint write_chunks (p : string) (chunks : list (list byte)) (st : state)
  : state :=
  match chunks with
  | [] => st
  | chunk :: rest =>
      write_chunks p rest
        (match chunk with [] => st | _ => append p chunk st end)
  end.

(** The [try] block of [download_file]: [None] when it runs to its end,
    the message of the exception otherwise. *)
Definition attempt (W : World) (url filepath : string) (st : state)
  : option string * state :=
  let st := record (Get url) st in
  match http_get W url with
  | inl msg => (Some msg, st)
  | inr response =>
      match status_error response with
      | Some msg => (Some msg, st)
      | None =>
          match from_option (int_error W) None (content_length response) with
          | Some msg => (Some msg, st)
          | None =>
              match open_error W filepath with
              | Some msg => (Some msg, st)
              | None =>
                  let st := create filepath st in
                  let st := write_chunks filepath (body response) st in
                  match stream_error response with
                  | Some msg => (Some msg, st)
                  | None =>
                      (None,
                       record (Say ("✅ Downloaded " ++ basename W filepath))
                              st)
                  end
              end
          end
      end
  end.

Definition download_file (W : World) (url filepath : string) (st : state)
  : state :=
  if exists_ filepath st then
    record (Say ("✅ " ++ basename W filepath ++ " already exists.")) st
  else
    let st :=
      record (Say ("⬇️ Downloading " ++ basename W filepath ++ "...")) st in
    match attempt W url filepath st with
    | (None, st) => st
    | (Some e, st) =>
        let st :=
          record (Say ("❌ Failed to download " ++ basename W filepath
                       ++ ": " ++ e)) st in
        if exists_ filepath st then remove filepath st else st
    end.

(** [MODELS], in insertion order. *)
Definition MODELS : list (string * string) :=
  [ ("inswapper_128.onnx",
     "https://huggingface.co/ezioruan/inswapper_128.onnx/resolve/main/inswapper_128.onnx");
    ("w600k_r50.onnx",
     "https://huggingface.co/ezioruan/inswapper_128.onnx/resolve/main/w600k_r50.onnx") ]%string.

(** The script, for [MODELS_DIR] where the interpreter finds it. *)
Definition main (W : World) (MODELS_DIR : string) (st : state) : state :=
  let st := if exists_ MODELS_DIR st then st else makedirs MODELS_DIR st in
  let st := record (Say "🚀 Setting up AI Models...") st in
  let st :=
    foldl (fun st m => download_file W (snd m) (join W MODELS_DIR (fst m)) st)
          st MODELS in
  record (Say "✨ Model setup complete.") st.

(** The requests made so far. *)
Definition requests (st : state) : list string :=
  omap (fun e => match e with Get url => Some url | Say _ => None end) (log st).

End SetupModels.

(** A small world for the setup script: the first model downloads in two
    chunks around an empty one, the second breaks off after its first
    chunk. *)
Module ToySetup.

Definition url1 : string := snd (default (""%string, ""%string)
                                   (SetupModels.MODELS !! 0%nat)).

Definition good : SetupModels.response := {|
  SetupModels.status_error := None;
  SetupModels.content_length := Some "3"%string;
  SetupModels.body := [ [x01; x02]; []; [x03] ];
  SetupModels.stream_error := None
|}.

Definition broken : SetupModels.response := {|
  SetupModels.status_error := None;
  SetupModels.content_length := None;
  SetupModels.body := [ [x07] ];
  SetupModels.stream_error := Some "Connection broken"%string
|}.

Definition world : SetupModels.World := {|
  SetupModels.http_get := fun url =>
    if String.eqb url url1 then inr good else inr broken;
  SetupModels.int_error := fun _ => None;
  SetupModels.open_error := fun _ => None;
  SetupModels.basename := fun p => p;
  SetupModels.join := fun d n => (d ++ "/" ++ n)%string
|}.

Definition empty : SetupModels.state := {|
  SetupModels.files := ∅;
  SetupModels.dirs := ∅;
  SetupModels.log := []
|}.

Definition stocked : SetupModels.state := {|
  SetupModels.files :=
    {[ "models/inswapper_128.onnx"%string := [x01];
       "models/w600k_r50.onnx"%string := [x02] ]};
  SetupModels.dirs := {[ "models"%string ]};
  SetupModels.log := []
|}.

End ToySetup.

(** ** More vocabulary *)

(** The exact value of a finite float, in lowest terms. *)
Definition F_to_Q (x : F) : option Q :=
  match x with
  | S754_zero _ => Some 0%Q
  | S754_finite s m e =>
      Some (Qred ((if s then - inject_Z (Zpos m) else inject_Z (Zpos m))
                  * (2 # 1) ^ e)%Q)
  | _ => None
  end.







(** The small world with a dead embedder: the model answers zeros, whose
    norm is zero. *)
Module ToyZero.

Definition lib : Lib := {|
  imread := imread Toy.lib;
  detect := detect Toy.lib;
  estimateAffinePartial2D := estimateAffinePartial2D Toy.lib;
  invertAffineTransform := invertAffineTransform Toy.lib;
  remap3 := remap3 Toy.lib;
  remap1 := remap1 Toy.lib;
  bgr2lab := bgr2lab Toy.lib;
  lab2bgr := lab2bgr Toy.lib;
  meanStdDev := meanStdDev Toy.lib;
  GaussianBlur := GaussianBlur Toy.lib;
  rectangle := rectangle Toy.lib;
  linalg_norm := fun _ => S754_zero false;
  arcface_run := fun _ => [ [ S754_zero false; S754_zero true ] ];
  inswapper_run := inswapper_run Toy.lib
|}.

End ToyZero.

(** The small world with an estimator that finds no transform. *)
Module ToyLost.

Definition lib : Lib := {|
  imread := imread Toy.lib;
  detect := detect Toy.lib;
  estimateAffinePartial2D := fun _ _ => Ok None;
  invertAffineTransform := invertAffineTransform Toy.lib;
  remap3 := remap3 Toy.lib;
  remap1 := remap1 Toy.lib;
  bgr2lab := bgr2lab Toy.lib;
  lab2bgr := lab2bgr Toy.lib;
  meanStdDev := meanStdDev Toy.lib;
  GaussianBlur := GaussianBlur Toy.lib;
  rectangle := rectangle Toy.lib;
  linalg_norm := linalg_norm Toy.lib;
  arcface_run := arcface_run Toy.lib;
  inswapper_run := inswapper_run Toy.lib
|}.

End ToyLost.

(** A signed zero. *)
Definition is_zero (x : F) : Prop := exists s, x = S754_zero s.

(** The sharpened sample [s] lies on the far side of the original [o] from
    the blurred sample [b]. *)
Definition sharpened_away (o b s : u8) : Prop :=
  (u8_to_Z b <= u8_to_Z o -> u8_to_Z o <= u8_to_Z s) /\
  (u8_to_Z o <= u8_to_Z b -> u8_to_Z s <= u8_to_Z o).

Definition sharpened_away3 (o b s : px3 u8) : Prop :=
  let '(o1, o2, o3) := o in
  let '(b1, b2, b3) := b in
  let '(s1, s2, s3) := s in
  sharpened_away o1 b1 s1 /\ sharpened_away o2 b2 s2 /\
  sharpened_away o3 b3 s3.

(** InsightFace finding two faces in the toy picture, with a swapper that
    changes the image and an output path inside a directory. *)
Module ToyCrowd.

Definition insight : Insight nat := {|
  if_imread := Toy.read;
  app_get := fun img =>
    match Toy.faces img with [] => [] | _ => [ 1%nat; 2%nat ] end;
  swapper_get := fun img _ _ => map2d swap_rb img;
  dirname := fun _ => "out"%string
|}.

End ToyCrowd.

(** The small world with an inverse transform that is a shift: output
    pixel [(x, y)] samples the crop at [(x + 64, y + 64)], its centre. *)
Module ToyShift.

Definition lib : Lib := {|
  imread := imread Toy.lib;
  detect := detect Toy.lib;
  estimateAffinePartial2D := estimateAffinePartial2D Toy.lib;
  invertAffineTransform := invertAffineTransform Toy.lib;
  remap3 := fun src _ x y =>
    default (x00, x00, x00) (at2 src (y + 64) (x + 64));
  remap1 := fun src _ x y => default x00 (at2 src (y + 64) (x + 64));
  bgr2lab := bgr2lab Toy.lib;
  lab2bgr := lab2bgr Toy.lib;
  meanStdDev := meanStdDev Toy.lib;
  GaussianBlur := GaussianBlur Toy.lib;
  rectangle := rectangle Toy.lib;
  linalg_norm := linalg_norm Toy.lib;
  arcface_run := arcface_run Toy.lib;
  inswapper_run := inswapper_run Toy.lib
|}.

Definition crop : image u8 := replicate 128 (replicate 128 (x0a, x0b, x0c)).

End ToyShift.

(** * Properties *)

(** ** Arrays *)

Section Arrays.
Context {A B C : Type}.

Lemma tabulate2d_rows (h w : nat) (f : nat -> nat -> A) :
  length (tabulate2d h w f) = h.
Proof. unfold tabulate2d. by rewrite length_fmap, length_seq. Qed.

Lemma tabulate2d_row (h w : nat) (f : nat -> nat -> A) y r :
  tabulate2d h w f !! y = Some r ->
  r = (fun x => f x y) <$> seq 0 w /\ (y < h)%nat.
Proof.
  unfold tabulate2d. rewrite list_lookup_fmap.
  destruct (seq 0 h !! y) as [y'|] eqn:E; [|done].
  apply lookup_seq in E as [-> Hy]. simpl. by intros [= <-].
Qed.

Lemma tabulate2d_at (h w : nat) (f : nat -> nat -> A) y x :
  (y < h)%nat -> (x < w)%nat -> at2 (tabulate2d h w f) y x = Some (f x y).
Proof.
  intros Hy Hx. unfold at2, tabulate2d.
  rewrite list_lookup_fmap, lookup_seq_lt by done. simpl.
  by rewrite list_lookup_fmap, lookup_seq_lt.
Qed.

Lemma tabulate2d_cols (h w : nat) (f : nat -> nat -> A) :
  Forall (fun r => length r = w) (tabulate2d h w f).
Proof.
  apply Forall_lookup. intros y r Hr.
  apply tabulate2d_row in Hr as [-> _].
  by rewrite length_fmap, length_seq.
Qed.

Lemma map2d_rows (f : A -> B) a : length (map2d f a) = length a.
Proof. unfold map2d. by rewrite length_fmap. Qed.

Lemma map2d_cols (f : A -> B) a (w : nat) :
  Forall (fun r => length r = w) a ->
  Forall (fun r => length r = w) (map2d f a).
Proof.
  unfold map2d. intros H. apply Forall_fmap.
  eapply Forall_impl; [exact H|]. intros r Hr. simpl.
  by rewrite length_fmap.
Qed.

Lemma map2d_at (f : A -> B) a y x :
  at2 (map2d f a) y x = f <$> at2 a y x.
Proof.
  unfold at2, map2d. rewrite list_lookup_fmap.
  destruct (a !! y) as [r|]; simpl; [|done].
  by rewrite list_lookup_fmap.
Qed.

Lemma zip2d_rows (f : A -> B -> C) a b :
  length a = length b -> length (zip2d f a b) = length a.
Proof. intros H. unfold zip2d. rewrite length_zip_with. lia. Qed.

Lemma zip2d_cols (f : A -> B -> C) a b (w : nat) :
  Forall (fun r => length r = w) a ->
  Forall (fun r => length r = w) b ->
  Forall (fun r => length r = w) (zip2d f a b).
Proof.
  intros Ha Hb. apply Forall_lookup. intros y r.
  unfold zip2d. rewrite lookup_zip_with.
  destruct (a !! y) as [ra|] eqn:Ea; [|done].
  destruct (b !! y) as [rb|] eqn:Eb; [|done].
  simpl. intros [= <-]. rewrite length_zip_with.
  rewrite (proj1 (Forall_lookup _ _) Ha _ _ Ea).
  rewrite (proj1 (Forall_lookup _ _) Hb _ _ Eb). lia.
Qed.

Lemma zip2d_at (f : A -> B -> C) a b y x u v :
  at2 a y x = Some u -> at2 b y x = Some v ->
  at2 (zip2d f a b) y x = Some (f u v).
Proof.
  unfold at2, zip2d. rewrite lookup_zip_with.
  destruct (a !! y) as [ra|]; [|done].
  destruct (b !! y) as [rb|]; [|done]. simpl.
  intros Hu Hv. by rewrite lookup_zip_with, Hu, Hv.
Qed.

(** With all rows of one width, [shape] is determined by the counts. *)
Lemma shape_of_dims (a : list (list A)) (h w : nat) :
  length a = h -> Forall (fun r => length r = w) a -> (0 < h)%nat ->
  shape a = (h, w).
Proof.
  intros Hh Hw Hpos. unfold shape. rewrite Hh. f_equal.
  destruct a as [|r a']; simpl in *; [lia|].
  by inversion Hw.
Qed.

End Arrays.

(** ** Compositing *)

Lemma alpha_zero_iff (b : u8) :
  RoopCore.alpha b = S754_zero false <-> b = x00.
Proof. destruct b; vm_compute; split; congruence. Qed.

Lemma face_times_zero (f : u8) :
  Fp.mul b32 (u8_to_F b32 f) (S754_zero false) = S754_zero false.
Proof. by destruct f. Qed.

Lemma target_times_one (t : u8) :
  F_to_u8
    (Fp.add b32 (S754_zero false)
       (Fp.mul b32 (u8_to_F b32 t)
          (Fp.sub b32 (Fp.of_Z b32 1) (S754_zero false)))) = t.
Proof. destruct t; vm_compute; reflexivity. Qed.

(** With [mask_f = 0] the blend returns the target sample, bit for bit. *)
Lemma blend_px_alpha_zero (f t : u8) :
  RoopCore.blend_px f (S754_zero false) t = t.
Proof.
  unfold RoopCore.blend_px. rewrite face_times_zero. apply target_times_one.
Qed.

Lemma at2_bounds {A} (a : list (list A)) y x p :
  rect a -> at2 a y x = Some p ->
  (y < fst (shape a))%nat /\ (x < snd (shape a))%nat.
Proof.
  unfold rect, at2. intros Hr Hp.
  destruct (a !! y) as [r|] eqn:Er; [|done].
  split.
  - simpl. by eapply lookup_lt_Some.
  - rewrite <- (proj1 (Forall_lookup _ _) Hr _ _ Er).
    by eapply lookup_lt_Some.
Qed.

Lemma same_dims_same_shape {A B} (a : list (list A)) (b : list (list B))
    (h w : nat) :
  length a = h -> Forall (fun r => length r = w) a ->
  length b = h -> Forall (fun r => length r = w) b ->
  shape a = shape b.
Proof.
  intros Ha Hwa Hb Hwb. destruct h as [|h].
  - destruct a, b; simpl in *; done.
  - rewrite (shape_of_dims a (S h) w), (shape_of_dims b (S h) w); auto; lia.
Qed.

(** C1. In the paste-back of [RoopCore.swap], the output has the target's
    dimensions (as many rows, every row as wide), and at every pixel where
    the warped mask gives [mask_f = 0] the output pixel is the target pixel,
    exactly. *)
Theorem paste_back_alpha_zero_is_target
    (L : Lib) (swapped target : image u8) (m : affine) :
  rect target ->
  let final := RoopCore.paste_back L swapped target m in
  let warped_mask :=
    warpAffine1 L (RoopCore.soft_mask L) (invertAffineTransform L m)
      (snd (shape target)) (fst (shape target)) in
  let mask_f := map2d RoopCore.alpha warped_mask in
  (shape final = shape target /\ rect final) /\
  forall y x p,
    at2 mask_f y x = Some (S754_zero false) ->
    at2 target y x = Some p ->
    at2 final y x = Some p.
Proof.
  intros Hrect final warped_mask mask_f.
  set (h := fst (shape target)) in *. set (w := snd (shape target)) in *.
  assert (Hfin : final =
    RoopCore.blend
      (warpAffine3 L swapped (invertAffineTransform L m) w h)
      warped_mask target) by reflexivity.
  assert (Hrows : length final = h /\ Forall (fun r => length r = w) final).
  { rewrite Hfin. unfold RoopCore.blend. split.
    - assert (Hwf : length (warpAffine3 L swapped (invertAffineTransform L m)
                                       w h) = h)
        by apply tabulate2d_rows.
      assert (Hmf : length (map2d RoopCore.alpha warped_mask) = h)
        by (rewrite map2d_rows; apply tabulate2d_rows).
      assert (Ht : length target = h) by reflexivity.
      rewrite zip2d_rows; rewrite zip2d_rows; congruence.
    - apply zip2d_cols; [apply zip2d_cols|exact Hrect].
      + apply tabulate2d_cols.
      + apply map2d_cols, tabulate2d_cols. }
  destruct Hrows as [Hlen Hcols].
  assert (Hshape : shape final = shape target).
  { apply (same_dims_same_shape _ _ h w); auto. }
  split.
  - split; [exact Hshape|]. unfold rect. by rewrite Hshape.
  - intros y x p Ha Hp.
    destruct (at2_bounds _ _ _ _ Hrect Hp) as [Hy Hx].
    rewrite Hfin. unfold RoopCore.blend.
    unfold mask_f in Ha.
    erewrite zip2d_at; [| |exact Hp].
    2:{ eapply zip2d_at; [|exact Ha].
        unfold warpAffine3. by apply tabulate2d_at. }
    f_equal. simpl. destruct (remap3 _ _ _ _ _) as [[f1 f2] f3].
    destruct p as [[t1 t2] t3]. simpl.
    by rewrite !blend_px_alpha_zero.
Qed.

Lemma toy_face_rect : rect Toy.face_img.
Proof. repeat constructor. Qed.

(** The compositing theorem at work: in the small world the corner of the
    warped mask is fully transparent, and the corner pixel of the result is
    the target's, not the pasted crop's. *)
Lemma paste_back_alpha_zero_is_target_witness :
  rect Toy.face_img /\
  shape (RoopCore.paste_back Toy.lib Toy.face_img Toy.blank_img
           Toy.unit_affine) = (2, 2)%nat /\
  at2 (RoopCore.paste_back Toy.lib Toy.blank_img Toy.face_img
         Toy.unit_affine) 0 0 = Some (x10, x20, x30).
Proof.
  split; [exact toy_face_rect|]. split.
  - apply (paste_back_alpha_zero_is_target Toy.lib Toy.face_img Toy.blank_img
             Toy.unit_affine).
    repeat constructor.
  - apply (paste_back_alpha_zero_is_target Toy.lib Toy.blank_img Toy.face_img
             Toy.unit_affine toy_face_rect); lazy; reflexivity.
Defined.

(** ** Control flow of the two scripts *)

Local Open Scope string_scope.
Local Open Scope list_scope.

(** A source image without a face, in the raw-inference script: [swap]
    returns after the detector call, before the estimator and both models,
    and the script then ends normally. *)
Lemma roop_swap_no_source_face (L : Lib) (wp : Fp.fmt)
    (source target output : string) (img : image u8) (tr : list event) :
  imread L source = Some img ->
  detect L (map2d swap_rb img) = [] ->
  RoopCore.swap L wp source target output tr =
    (Ok false,
     tr ++ [EvImread source] ++ [EvImread target]
        ++ [EvDetect (map2d swap_rb img)]).
Proof.
  intros Hs Hd. unfold RoopCore.swap, RoopCore.get_landmarks, bind, emit, ret.
  rewrite Hs, Hd. by rewrite <- !app_assoc.
Qed.

(** C3, as the code has it. With no face in the source image the
    raw-inference script stops before the estimator and before both model
    calls, and then exits with status 0: the result of [swap] is dropped. *)
Theorem roop_main_no_source_face_exits_zero (L : Lib) (wp : Fp.fmt)
    (source target output : string) (img : image u8) :
  imread L source = Some img ->
  detect L (map2d swap_rb img) = [] ->
  run (RoopCore.main L wp source target output) =
    (Ok tt,
     [ EvPrint "Loading ArcFace (Analysis)...";
       EvPrint "Loading Inswapper (Swap)...";
       EvImread source; EvImread target;
       EvDetect (map2d swap_rb img) ]) /\
  existsb is_alignment_or_inference
          (snd (run (RoopCore.main L wp source target output))) = false /\
  exit_status (fst (run (RoopCore.main L wp source target output))) = 0%Z.
Proof.
  intros Hs Hd.
  assert (E : run (RoopCore.main L wp source target output) =
    (Ok tt,
     [ EvPrint "Loading ArcFace (Analysis)...";
       EvPrint "Loading Inswapper (Swap)...";
       EvImread source; EvImread target;
       EvDetect (map2d swap_rb img) ])).
  { unfold run, RoopCore.main, bind at 1 2 3, emit. simpl.
    by rewrite (roop_swap_no_source_face L wp _ _ _ img _ Hs Hd). }
  rewrite E. by repeat split.
Qed.

Lemma roop_main_no_source_face_exits_zero_witness :
  imread Toy.lib "blank.png" = Some Toy.blank_img /\
  detect Toy.lib (map2d swap_rb Toy.blank_img) = [] /\
  exit_status
    (fst (run (RoopCore.main Toy.lib b32 "blank.png" "face.png" "o.png")))
  = 0%Z.
Proof.
  split; [reflexivity|]. split; [reflexivity|].
  apply (roop_main_no_source_face_exits_zero Toy.lib b32 "blank.png"
           "face.png" "o.png" Toy.blank_img); reflexivity.
Defined.

(** The same input in the InsightFace script: [main] calls [sys.exit(1)]. *)
Lemma insight_main_no_source_face_exits_one {face : Type} (I : Insight face)
    (source target output : string) (src_img tgt_img : image u8) :
  if_imread I source = Some src_img ->
  if_imread I target = Some tgt_img ->
  app_get I src_img = [] ->
  exit_status
    (fst (run (FaceSwapPipeline.main I source target output))) = 1%Z.
Proof.
  intros Hs Ht Hf.
  unfold run, FaceSwapPipeline.main, FaceSwapPipeline.init,
    FaceSwapPipeline.swap, bind, emit, ret.
  simpl. rewrite Hs, Ht, Hf. reflexivity.
Qed.

(** ** Landmarks *)

Section Landmarks.
Variable L : Lib.

Lemma get_landmarks_unreadable tr :
  RoopCore.get_landmarks L None tr =
    (Raise (CvError "cvtColor: empty source"), tr).
Proof. reflexivity. Qed.

Lemma get_landmarks_no_face img tr :
  detect L (map2d swap_rb img) = [] ->
  RoopCore.get_landmarks L (Some img) tr =
    (Ok None, tr ++ [EvDetect (map2d swap_rb img)]).
Proof.
  intros Hd. unfold RoopCore.get_landmarks, bind, emit, ret.
  by rewrite Hd.
Qed.

Lemma get_landmarks_face img lm rest p0 p1 p2 p3 p4 tr :
  detect L (map2d swap_rb img) = lm :: rest ->
  lm !! 468%nat = Some p0 -> lm !! 473%nat = Some p1 ->
  lm !! 1%nat = Some p2 -> lm !! 61%nat = Some p3 ->
  lm !! 291%nat = Some p4 ->
  RoopCore.get_landmarks L (Some img) tr =
    (Ok (Some (RoopCore.scale_landmark (fst (shape img)) (snd (shape img))
                 <$> [p0; p1; p2; p3; p4])),
     tr ++ [EvDetect (map2d swap_rb img)]).
Proof.
  intros Hd H0 H1 H2 H3 H4.
  unfold RoopCore.get_landmarks, bind, emit, ret. rewrite Hd.
  unfold shape at 1. simpl mapM.
  unfold RoopCore.keypoint, bind, ret.
  by rewrite H0, H1, H2, H3, H4.
Qed.

Lemma mesh_has_indices (lm : list landmark) :
  (473 < length lm)%nat ->
  exists p0 p1 p2 p3 p4,
    lm !! 468%nat = Some p0 /\ lm !! 473%nat = Some p1 /\
    lm !! 1%nat = Some p2 /\ lm !! 61%nat = Some p3 /\
    lm !! 291%nat = Some p4.
Proof.
  intros Hlen.
  destruct (lookup_lt_is_Some_2 lm 468) as [p0 H0]; [lia|].
  destruct (lookup_lt_is_Some_2 lm 473) as [p1 H1]; [lia|].
  destruct (lookup_lt_is_Some_2 lm 1) as [p2 H2]; [lia|].
  destruct (lookup_lt_is_Some_2 lm 61) as [p3 H3]; [lia|].
  destruct (lookup_lt_is_Some_2 lm 291) as [p4 H4]; [lia|].
  by exists p0, p1, p2, p3, p4.
Qed.

End Landmarks.

(** ** Invariants of traces *)

Section Keeps.
Context {A B : Type} (P : event -> Prop).

Lemma keeps_ret (a : A) (Q : A -> Prop) : Q a -> keeps P (ret a) Q.
Proof. intros Ha tr Htr. split; [done|]. by intros a' [= <-]. Qed.

Lemma keeps_raise (e : exn) (Q : A -> Prop) : keeps P (raise e) Q.
Proof. intros tr Htr. split; [done|]. intros a' H. discriminate H. Qed.

Lemma keeps_lift (r : res A) : keeps P (lift r) (fun _ => True).
Proof. intros tr Htr. split; done. Qed.

Lemma keeps_emit (e : event) : P e -> keeps P (emit e) (fun _ => True).
Proof.
  intros He tr Htr. split; [|done]. simpl.
  apply Forall_app. split; [done|]. by constructor.
Qed.

Lemma keeps_bind (c : M A) (k : A -> M B) (Q : A -> Prop) (R : B -> Prop) :
  keeps P c Q -> (forall a, Q a -> keeps P (k a) R) ->
  keeps P (bind c k) R.
Proof.
  intros Hc Hk tr Htr. unfold bind.
  destruct (Hc tr Htr) as [Htr' Hq].
  destruct (c tr) as [[a|e] tr'] eqn:E; simpl in *.
  - apply (Hk a (Hq a eq_refl) tr' Htr').
  - split; [done|]. intros b H. discriminate H.
Qed.

Lemma keeps_weaken (c : M A) (Q Q' : A -> Prop) :
  keeps P c Q -> (forall a, Q a -> Q' a) -> keeps P c Q'.
Proof.
  intros Hc Hq tr Htr. destruct (Hc tr Htr) as [H1 H2].
  split; [done|]. intros a Ha. by apply Hq, H2.
Qed.

End Keeps.

(** ** Stepping through a run *)

Lemma bind_ok {A B} (c : M A) (k : A -> M B) tr a tr' :
  c tr = (Ok a, tr') -> bind c k tr = k a tr'.
Proof. intros H. unfold bind. by rewrite H. Qed.

Lemma bind_fail {A B} (c : M A) (k : A -> M B) tr e tr' :
  c tr = (Raise e, tr') -> bind c k tr = (Raise e, tr').
Proof. intros H. unfold bind. by rewrite H. Qed.

Lemma bind_emit {B} (e : event) (k : unit -> M B) tr :
  bind (emit e) k tr = k tt (tr ++ [e]).
Proof. reflexivity. Qed.

Lemma estimate_run (L : Lib) src dst tr :
  RoopCore.estimate L src dst tr =
    (estimateAffinePartial2D L src dst, tr ++ [EvEstimate src dst]).
Proof. reflexivity. Qed.

Lemma norm_crop_ok (L : Lib) img kps size a tr :
  estimateAffinePartial2D L kps ARC_FACE_DST = Ok (Some a) ->
  RoopCore.norm_crop L (Some img) kps size tr =
    (Ok (warpAffine3 L img a size size, a),
     tr ++ [EvEstimate kps ARC_FACE_DST]).
Proof.
  intros H. unfold RoopCore.norm_crop.
  erewrite bind_ok; [|rewrite estimate_run, H; reflexivity].
  reflexivity.
Qed.

Lemma get_embedding_run (L : Lib) img tr :
  RoopCore.get_embedding L img tr =
    (Ok (RoopCore.normalize L (arcface_run L (RoopCore.embed_input img))),
     tr ++ [EvArcface (RoopCore.embed_input img)]).
Proof. reflexivity. Qed.

Section LandmarkCount.
Variable L : Lib.
Variable P : event -> Prop.
Hypothesis P_detect : forall rgb, P (EvDetect rgb).

Lemma keeps_keypoints lm h w (l : list nat) :
  keeps P (mapM (RoopCore.keypoint lm h w) l)
        (fun r => length r = length l).
Proof.
  induction l as [|i l IH]; simpl.
  - by apply keeps_ret.
  - eapply keeps_bind with (Q := fun _ => True).
    + unfold RoopCore.keypoint. destruct (lm !! i).
      * by apply keeps_ret.
      * apply keeps_raise.
    + intros p _. eapply keeps_bind; [exact IH|].
      intros r Hr. apply keeps_ret. simpl. by rewrite Hr.
Qed.

Lemma keeps_get_landmarks img :
  keeps P (RoopCore.get_landmarks L img)
        (fun r => forall kps, r = Some kps -> length kps = 5%nat).
Proof.
  unfold RoopCore.get_landmarks. destruct img as [img|].
  - eapply keeps_bind; [by apply keeps_emit|]. intros _ _.
    destruct (detect L _) as [|lm rest].
    + by apply keeps_ret.
    + destruct (shape img) as [h w].
      eapply keeps_bind; [apply keeps_keypoints|].
      intros kps Hk. apply keeps_ret. by intros ? [= <-].
  - apply keeps_raise.
Qed.

End LandmarkCount.

Section EstimatorInput.
Variable L : Lib.
Variable wp : Fp.fmt.

Let P := fun e => estimate_gets_five e /\ written_after_refine L wp e.

Lemma keeps_estimate src dst :
  length src = 5%nat ->
  keeps P (RoopCore.estimate L src dst) (fun _ => True).
Proof.
  intros H. unfold RoopCore.estimate.
  eapply keeps_bind; [by apply keeps_emit|]. intros _ _. apply keeps_lift.
Qed.

Lemma keeps_warp_args img m :
  keeps P (RoopCore.warp_args img m) (fun _ => True).
Proof.
  unfold RoopCore.warp_args. destruct img, m;
    (by apply keeps_ret) || apply keeps_raise.
Qed.

Lemma keeps_swap source target output :
  keeps P (RoopCore.swap L wp source target output) (fun _ => True).
Proof.
  unfold RoopCore.swap.
  eapply keeps_bind; [by apply keeps_emit|]. intros _ _.
  eapply keeps_bind; [by apply keeps_emit|]. intros _ _.
  eapply keeps_bind; [by apply keeps_get_landmarks|].
  intros [src_kps|] Hsrc; [|by apply keeps_ret].
  eapply keeps_bind with (Q := fun _ => True).
  { unfold RoopCore.norm_crop.
    eapply keeps_bind; [apply keeps_estimate; by apply Hsrc|]. intros m _.
    eapply keeps_bind; [apply keeps_warp_args|]. intros [i a] _.
    by apply keeps_ret. }
  intros crop _.
  eapply keeps_bind with (Q := fun _ => True).
  { unfold RoopCore.get_embedding.
    eapply keeps_bind; [by apply keeps_emit|]. intros _ _.
    by apply keeps_ret. }
  intros source_embed _.
  eapply keeps_bind; [by apply keeps_get_landmarks|].
  intros [tgt_kps|] Htgt; [|by apply keeps_ret].
  eapply keeps_bind; [apply keeps_estimate; by apply Htgt|]. intros m _.
  eapply keeps_bind; [apply keeps_warp_args|]. intros [tgt a] _.
  eapply keeps_bind; [by apply keeps_emit|]. intros _ _.
  eapply keeps_bind with (Q := fun sw => exists out,
                                 sw = RoopCore.decode_output out).
  { unfold RoopCore.swap_output. destruct (inswapper_run _ _ _) as [|out ?].
    - apply keeps_raise.
    - apply keeps_ret. by exists out. }
  intros swapped [out ->].
  eapply keeps_bind.
  { apply keeps_emit. split; [done|]. by exists out, tgt, a. }
  intros _ _.
  eapply keeps_bind; [by apply keeps_emit|]. intros _ _.
  by apply keeps_ret.
Qed.

End EstimatorInput.

(** C10. With the full FaceLandmarker mesh, [get_landmarks] on an image
    returns [None] when no face is reported, and otherwise exactly the five
    points of the first face at mesh indices 468, 473, 1, 61, 291 (left eye,
    right eye, nose, left and right mouth corner), in that order, scaled to
    pixels; and in every run of [swap] each estimator call receives five
    source points. *)
Theorem get_landmarks_none_or_five (L : Lib) :
  full_mesh L ->
  (forall (img : image u8) (tr : list event),
      let rgb := map2d swap_rb img in
      let scale :=
        RoopCore.scale_landmark (fst (shape img)) (snd (shape img)) in
      (detect L rgb = [] /\
       RoopCore.get_landmarks L (Some img) tr = (Ok None, tr ++ [EvDetect rgb]))
      \/
      (exists lm rest p0 p1 p2 p3 p4,
          detect L rgb = lm :: rest /\
          lm !! 468%nat = Some p0 /\ lm !! 473%nat = Some p1 /\
          lm !! 1%nat = Some p2 /\ lm !! 61%nat = Some p3 /\
          lm !! 291%nat = Some p4 /\
          RoopCore.get_landmarks L (Some img) tr =
            (Ok (Some [scale p0; scale p1; scale p2; scale p3; scale p4]),
             tr ++ [EvDetect rgb]))) /\
  (forall (img : option (image u8)) (tr : list event) (kps : list pt),
      fst (RoopCore.get_landmarks L img tr) = Ok (Some kps) ->
      length kps = 5%nat) /\
  (forall (wp : Fp.fmt) (source target output : string),
      Forall estimate_gets_five
             (snd (run (RoopCore.swap L wp source target output)))).
Proof.
  intros Hmesh. split; [|split].
  - intros img tr rgb scale.
    destruct (detect L rgb) as [|lm rest] eqn:Hd.
    + left. split; [done|]. by apply get_landmarks_no_face.
    + right.
      assert (Hlen : length lm = 478%nat).
      { specialize (Hmesh rgb). rewrite Hd in Hmesh. by inversion Hmesh. }
      destruct (mesh_has_indices lm) as (p0 & p1 & p2 & p3 & p4 & H);
        [lia|].
      destruct H as (H0 & H1 & H2 & H3 & H4).
      exists lm, rest, p0, p1, p2, p3, p4. repeat (split; [done|]).
      exact (get_landmarks_face L img lm rest p0 p1 p2 p3 p4 tr
               Hd H0 H1 H2 H3 H4).
  - intros img tr kps Hk.
    destruct (keeps_get_landmarks L (fun _ => True) (fun _ => I) img tr)
      as [_ Hq].
    + by apply Forall_true.
    + by apply (Hq (Some kps)).
  - intros wp source target output.
    eapply Forall_impl;
      [by apply (keeps_swap L wp source target output [])|].
    by intros e [He _].
Qed.

Lemma toy_full_mesh : full_mesh Toy.lib.
Proof.
  intros rgb. simpl. unfold Toy.faces.
  destruct rgb as [|[|[[r g] b] row] rows]; try constructor.
  destruct (Byte.eqb r x00); repeat constructor.
Qed.

Lemma get_landmarks_none_or_five_witness :
  full_mesh Toy.lib /\
  (exists kps,
      fst (run (RoopCore.get_landmarks Toy.lib (Some Toy.face_img)))
        = Ok (Some kps) /\ length kps = 5%nat) /\
  fst (run (RoopCore.get_landmarks Toy.lib (Some Toy.blank_img))) = Ok None.
Proof.
  split; [exact toy_full_mesh|].
  pose proof (get_landmarks_none_or_five Toy.lib toy_full_mesh) as [H _].
  split.
  - destruct (H Toy.face_img []) as [[Hd _]|(lm & rest & p0 & p1 & p2 & p3
                                              & p4 & _ & _ & _ & _ & _ & _ & Hg)].
    + discriminate Hd.
    + eexists. unfold run. rewrite Hg. split; reflexivity.
  - destruct (H Toy.blank_img []) as [[_ Hg]|(lm & rest & p0 & p1 & p2 & p3
                                               & p4 & Hd & _)].
    + unfold run. by rewrite Hg.
    + discriminate Hd.
Defined.

(** ** The Aligner and short landmark sets *)

(** C8. Given that OpenCV's estimator rejects point sets of different
    sizes, [norm_crop] called with fewer than five landmarks raises
    [cv2.error]; the estimator saw the landmarks exactly as passed (nothing
    was padded) and nothing was warped.  The inline 128-pixel alignment of
    [swap] behaves alike. *)
Theorem norm_crop_rejects_fewer_than_five (L : Lib)
    (img : option (image u8)) (landmark : list pt) (image_size : nat)
    (tr : list event) :
  estimator_checks_count L ->
  (length landmark < 5)%nat ->
  (exists msg,
      RoopCore.norm_crop L img landmark image_size tr =
        (Raise (CvError msg), tr ++ [EvEstimate landmark ARC_FACE_DST])) /\
  (exists msg,
      RoopCore.estimate L landmark dst_128 tr =
        (Raise (CvError msg), tr ++ [EvEstimate landmark dst_128])).
Proof.
  intros Hchk Hlen. split.
  - destruct (Hchk landmark ARC_FACE_DST) as [msg Hm].
    { simpl. lia. }
    exists msg.
    unfold RoopCore.norm_crop, RoopCore.estimate, bind, emit, lift.
    by rewrite Hm.
  - destruct (Hchk landmark dst_128) as [msg Hm].
    { unfold dst_128. rewrite length_fmap. simpl. lia. }
    exists msg. unfold RoopCore.estimate, bind, emit, lift. by rewrite Hm.
Qed.

Lemma toy_estimator_checks_count : estimator_checks_count Toy.lib.
Proof.
  intros src dst Hne. simpl. unfold Toy.estimate.
  destruct (Nat.eqb_spec (length src) (length dst)); [done|]. by eexists.
Qed.

Lemma norm_crop_rejects_fewer_than_five_witness :
  estimator_checks_count Toy.lib /\
  (length (take 4 ARC_FACE_DST) < 5)%nat /\
  exists msg,
    run (RoopCore.norm_crop Toy.lib (Some Toy.face_img) (take 4 ARC_FACE_DST)
           112) =
      (Raise (CvError msg), [EvEstimate (take 4 ARC_FACE_DST) ARC_FACE_DST]).
Proof.
  split; [exact toy_estimator_checks_count|].
  split; [simpl; lia|].
  apply (norm_crop_rejects_fewer_than_five Toy.lib (Some Toy.face_img)
           (take 4 ARC_FACE_DST) 112 [] toy_estimator_checks_count).
  simpl; lia.
Defined.

(** ** Unreadable images *)

(** In the InsightFace script an unreadable source or target makes [swap]
    report it and return [False] before any detection, and [main] exits
    with status 1. *)
Lemma insight_main_unreadable_exits_one {face : Type} (I : Insight face)
    (source target output : string) :
  if_imread I source = None \/ if_imread I target = None ->
  exists msg,
    run (FaceSwapPipeline.main I source target output) =
      (Raise (SystemExit 1),
       [ EvPrint FaceSwapPipeline.rule;
         EvPrint "  InsightFace InSwapper - Initializing";
         EvPrint FaceSwapPipeline.rule;
         EvPrint ("Models loaded successfully." ++ FaceSwapPipeline.nl)%string;
         EvPrint "Reading images...";
         EvImread source; EvImread target; EvPrint msg ]).
Proof.
  intros H.
  unfold run, FaceSwapPipeline.main, FaceSwapPipeline.init,
    FaceSwapPipeline.swap, bind, emit, ret.
  simpl.
  destruct (if_imread I source) as [s|] eqn:Hs.
  - destruct H as [H|H]; [discriminate H|]. rewrite H. by eexists.
  - by eexists.
Qed.

(** In the raw-inference script an unreadable source stops [swap] at the
    first [cv2.cvtColor], before the detector; the exception is not caught
    and the interpreter exits with status 1. *)
Lemma roop_main_unreadable_source (L : Lib) (wp : Fp.fmt)
    (source target output : string) :
  imread L source = None ->
  run (RoopCore.main L wp source target output) =
    (Raise (CvError "cvtColor: empty source"),
     [ EvPrint "Loading ArcFace (Analysis)...";
       EvPrint "Loading Inswapper (Swap)...";
       EvImread source; EvImread target ]) /\
  exit_status (fst (run (RoopCore.main L wp source target output))) = 1%Z.
Proof.
  intros Hs.
  assert (E : run (RoopCore.main L wp source target output) =
    (Raise (CvError "cvtColor: empty source"),
     [ EvPrint "Loading ArcFace (Analysis)...";
       EvPrint "Loading Inswapper (Swap)...";
       EvImread source; EvImread target ])).
  { unfold run, RoopCore.main, RoopCore.swap, bind, emit. simpl.
    by rewrite Hs. }
  by rewrite E.
Qed.

(** C9, as the raw-inference script has it. With a readable source that
    shows a face and an unreadable target, [swap] has already run the
    detector, the estimator and the embedding model on the source when
    [cv2.cvtColor] raises on the missing target; the exception is not
    caught and the interpreter exits with status 1. *)
Theorem roop_main_unreadable_target_after_inference (L : Lib) (wp : Fp.fmt)
    (source target output : string) (simg : image u8)
    (lm : list landmark) (rest : list (list landmark))
    (p0 p1 p2 p3 p4 : landmark) (a : affine) :
  let rgb := map2d swap_rb simg in
  let kps := RoopCore.scale_landmark (fst (shape simg)) (snd (shape simg))
               <$> [p0; p1; p2; p3; p4] in
  imread L source = Some simg ->
  imread L target = None ->
  detect L rgb = lm :: rest ->
  lm !! 468%nat = Some p0 -> lm !! 473%nat = Some p1 ->
  lm !! 1%nat = Some p2 -> lm !! 61%nat = Some p3 ->
  lm !! 291%nat = Some p4 ->
  estimateAffinePartial2D L kps ARC_FACE_DST = Ok (Some a) ->
  run (RoopCore.main L wp source target output) =
    (Raise (CvError "cvtColor: empty source"),
     [ EvPrint "Loading ArcFace (Analysis)...";
       EvPrint "Loading Inswapper (Swap)...";
       EvImread source; EvImread target;
       EvDetect rgb;
       EvEstimate kps ARC_FACE_DST;
       EvArcface (RoopCore.embed_input (warpAffine3 L simg a 112 112)) ]) /\
  existsb is_detection
          (snd (run (RoopCore.main L wp source target output))) = true /\
  existsb is_alignment_or_inference
          (snd (run (RoopCore.main L wp source target output))) = true /\
  exit_status (fst (run (RoopCore.main L wp source target output))) = 1%Z.
Proof.
  intros rgb kps Hs Ht Hd H0 H1 H2 H3 H4 He.
  assert (E : run (RoopCore.main L wp source target output) =
    (Raise (CvError "cvtColor: empty source"),
     [ EvPrint "Loading ArcFace (Analysis)...";
       EvPrint "Loading Inswapper (Swap)...";
       EvImread source; EvImread target;
       EvDetect rgb;
       EvEstimate kps ARC_FACE_DST;
       EvArcface (RoopCore.embed_input (warpAffine3 L simg a 112 112)) ])).
  { unfold run, RoopCore.main, RoopCore.swap, bind, emit. simpl.
    rewrite Hs, Ht.
    rewrite (get_landmarks_face L simg lm rest p0 p1 p2 p3 p4 _
               Hd H0 H1 H2 H3 H4).
    unfold RoopCore.norm_crop, RoopCore.estimate, bind, emit, lift.
    fold kps. rewrite He. simpl.
    unfold RoopCore.get_embedding, bind, emit, ret. simpl.
    reflexivity. }
  rewrite E. by repeat split.
Qed.

Lemma roop_main_unreadable_target_after_inference_witness :
  imread Toy.lib "face.png" = Some Toy.face_img /\
  imread Toy.lib "missing.png" = None /\
  exit_status
    (fst (run (RoopCore.main Toy.lib b32 "face.png" "missing.png" "o.png")))
  = 1%Z.
Proof.
  split; [reflexivity|]. split; [reflexivity|].
  eapply (roop_main_unreadable_target_after_inference Toy.lib b32
            "face.png" "missing.png" "o.png" Toy.face_img);
    reflexivity.
Defined.

(** ** The refine stage *)

Lemma all_u8_complete (b : u8) : In b all_u8.
Proof.
  assert (H : existsb (Byte.eqb b) all_u8 = true)
    by (destruct b; vm_compute; reflexivity).
  apply existsb_exists in H as (x & Hx & Hb).
  apply byte_dec_bl in Hb. by subst.
Qed.

(** The unsharp mask of the code, sample by sample, is the specification's
    formula: all 65536 pairs are checked. *)
Lemma sharpen_px_is_spec (a b : u8) :
  addWeighted_px a (Fp.lit b32 3 2) b (Fp.lit b32 (-1) 2) (Fp.of_Z b32 0)
  = spec_sharpen a b.
Proof.
  assert (H : forallb (fun a => forallb (fun b =>
                Byte.eqb
                  (addWeighted_px a (Fp.lit b32 3 2) b (Fp.lit b32 (-1) 2)
                                  (Fp.of_Z b32 0))
                  (spec_sharpen a b)) all_u8) all_u8 = true)
    by (vm_compute; reflexivity).
  rewrite forallb_forall in H. specialize (H a (all_u8_complete a)).
  rewrite forallb_forall in H. specialize (H b (all_u8_complete b)).
  by apply byte_dec_bl.
Qed.

Lemma transfer_px_is_spec (wp : Fp.fmt) (v : u8) (gm gs rm rs : F) :
  F_to_u8
    (Fp.clip (Fp.of_Z b32 0) (Fp.of_Z b32 255)
       (RoopCore.transfer_px wp (u8_to_F b32 v) gm
          (Fp.clip_lo RoopCore.eps gs) rm rs))
  = spec_color_channel wp v gm gs rm rs.
Proof. reflexivity. Qed.

Section Refine.
Variable L : Lib.
Variable wp : Fp.fmt.

Lemma color_transfer_at source target y x p l a b
    gm1 gm2 gm3 gs1 gs2 gs3 rm1 rm2 rm3 rs1 rs2 rs3 :
  meanStdDev L (RoopCore.lab_f32 L source)
    = ((gm1, gm2, gm3), (gs1, gs2, gs3)) ->
  meanStdDev L (RoopCore.lab_f32 L target)
    = ((rm1, rm2, rm3), (rs1, rs2, rs3)) ->
  at2 source y x = Some p ->
  bgr2lab L p = (l, a, b) ->
  at2 (RoopCore.color_transfer L wp source target) y x =
    Some (lab2bgr L (spec_color_channel wp l gm1 gs1 rm1 rs1,
                     spec_color_channel wp a gm2 gs2 rm2 rs2,
                     spec_color_channel wp b gm3 gs3 rm3 rs3)).
Proof.
  intros Hg Hr Hp Hlab.
  unfold RoopCore.color_transfer, RoopCore.transfer_lab.
  rewrite Hg, Hr. unfold RoopCore.lab_f32.
  rewrite !map2d_at, Hp. simpl. rewrite Hlab. simpl.
  by rewrite !transfer_px_is_spec.
Qed.

Lemma apply_sharpening_at img y x p g :
  at2 img y x = Some p ->
  at2 (GaussianBlur3 L img (0, 0)%nat (Fp.of_Z b64 2)) y x = Some g ->
  at2 (RoopCore.apply_sharpening L img) y x = Some (zip3 spec_sharpen p g).
Proof.
  intros Hp Hg. unfold RoopCore.apply_sharpening, addWeighted.
  rewrite (zip2d_at _ _ _ _ _ _ _ Hp Hg). f_equal.
  destruct p as [[p1 p2] p3], g as [[g1 g2] g3]. simpl.
  by rewrite !sharpen_px_is_spec.
Qed.

(** The whole of [swap] when both images load, both show a face and both
    estimates succeed. *)
Lemma roop_swap_success source target output simg timg
    lm_s rest_s s0 s1 s2 s3 s4 lm_t rest_t t0 t1 t2 t3 t4
    a_s a_t out rest_out tr :
  let kps_s := RoopCore.scale_landmark (fst (shape simg)) (snd (shape simg))
                 <$> [s0; s1; s2; s3; s4] in
  let kps_t := RoopCore.scale_landmark (fst (shape timg)) (snd (shape timg))
                 <$> [t0; t1; t2; t3; t4] in
  let align_src := warpAffine3 L simg a_s 112 112 in
  let embed :=
    RoopCore.normalize L (arcface_run L (RoopCore.embed_input align_src)) in
  let align_tgt := warpAffine3 L timg a_t 128 128 in
  imread L source = Some simg ->
  imread L target = Some timg ->
  detect L (map2d swap_rb simg) = lm_s :: rest_s ->
  lm_s !! 468%nat = Some s0 -> lm_s !! 473%nat = Some s1 ->
  lm_s !! 1%nat = Some s2 -> lm_s !! 61%nat = Some s3 ->
  lm_s !! 291%nat = Some s4 ->
  detect L (map2d swap_rb timg) = lm_t :: rest_t ->
  lm_t !! 468%nat = Some t0 -> lm_t !! 473%nat = Some t1 ->
  lm_t !! 1%nat = Some t2 -> lm_t !! 61%nat = Some t3 ->
  lm_t !! 291%nat = Some t4 ->
  estimateAffinePartial2D L kps_s ARC_FACE_DST = Ok (Some a_s) ->
  estimateAffinePartial2D L kps_t dst_128 = Ok (Some a_t) ->
  inswapper_run L (RoopCore.swap_input align_tgt) embed = out :: rest_out ->
  RoopCore.swap L wp source target output tr =
    (Ok true,
     tr ++ [ EvImread source; EvImread target;
             EvDetect (map2d swap_rb simg);
             EvEstimate kps_s ARC_FACE_DST;
             EvArcface (RoopCore.embed_input align_src);
             EvDetect (map2d swap_rb timg);
             EvEstimate kps_t dst_128;
             EvInswapper (RoopCore.swap_input align_tgt) embed;
             EvImwrite output
               (RoopCore.paste_back L
                  (RoopCore.apply_sharpening L
                     (RoopCore.color_transfer L wp
                        (RoopCore.decode_output out) align_tgt))
                  timg a_t);
             EvPrint ("Saved: " ++ output)%string ]).
Proof.
  intros kps_s kps_t align_src embed align_tgt
         Hs Ht Hds S0 S1 S2 S3 S4 Hdt T0 T1 T2 T3 T4 Hes Het Hout.
  unfold RoopCore.swap. rewrite !bind_emit, Hs, Ht.
  erewrite bind_ok;
    [|exact (get_landmarks_face L simg lm_s rest_s s0 s1 s2 s3 s4 _
               Hds S0 S1 S2 S3 S4)].
  cbv beta iota.
  erewrite bind_ok; [|exact (norm_crop_ok L simg _ 112 a_s _ Hes)].
  erewrite bind_ok; [|apply get_embedding_run].
  erewrite bind_ok;
    [|exact (get_landmarks_face L timg lm_t rest_t t0 t1 t2 t3 t4 _
               Hdt T0 T1 T2 T3 T4)].
  cbv beta iota.
  erewrite bind_ok; [|rewrite estimate_run; fold kps_t; rewrite Het;
                      reflexivity].
  erewrite bind_ok; [|reflexivity].
  cbv beta iota zeta delta [fst snd].
  rewrite bind_emit.
  fold align_src embed align_tgt. rewrite Hout.
  erewrite bind_ok; [|reflexivity].
  rewrite !bind_emit. unfold ret.
  by rewrite <- !app_assoc.
Qed.

End Refine.

(** C4. In every run of [swap] the image written is the paste-back of
    [apply_sharpening] applied to the result of [color_transfer]: colour
    transfer comes first.  Every LAB channel of the colour transfer is
    [(value - gen_mean) * (ref_std / gen_std) + ref_mean] with [gen_std]
    floored at 1e-5, clipped to [0, 255]; every sample of the sharpening is
    1.5 times the original minus 0.5 times the Gaussian blur of sigma 2.0,
    clipped to [0, 255]. *)
Theorem refine_color_transfer_then_sharpening (L : Lib) (wp : Fp.fmt) :
  (forall source target output,
      Forall (written_after_refine L wp)
             (snd (run (RoopCore.swap L wp source target output)))) /\
  (forall generated reference y x p l a b
          gm1 gm2 gm3 gs1 gs2 gs3 rm1 rm2 rm3 rs1 rs2 rs3,
      meanStdDev L (RoopCore.lab_f32 L generated)
        = ((gm1, gm2, gm3), (gs1, gs2, gs3)) ->
      meanStdDev L (RoopCore.lab_f32 L reference)
        = ((rm1, rm2, rm3), (rs1, rs2, rs3)) ->
      at2 generated y x = Some p ->
      bgr2lab L p = (l, a, b) ->
      at2 (RoopCore.color_transfer L wp generated reference) y x =
        Some (lab2bgr L (spec_color_channel wp l gm1 gs1 rm1 rs1,
                         spec_color_channel wp a gm2 gs2 rm2 rs2,
                         spec_color_channel wp b gm3 gs3 rm3 rs3))) /\
  (forall img y x p g,
      at2 img y x = Some p ->
      at2 (GaussianBlur3 L img (0, 0)%nat (Fp.of_Z b64 2)) y x = Some g ->
      at2 (RoopCore.apply_sharpening L img) y x =
        Some (zip3 spec_sharpen p g)).
Proof.
  split; [|split].
  - intros source target output.
    eapply Forall_impl;
      [by apply (keeps_swap L wp source target output [])|].
    by intros e [_ He].
  - intros. by eapply color_transfer_at.
  - intros. by apply apply_sharpening_at.
Qed.

Lemma refine_color_transfer_then_sharpening_witness :
  at2 (RoopCore.color_transfer Toy.lib b32 Toy.face_img Toy.blank_img) 0 0
    = Some (x10, x20, x30) /\
  exists g,
    at2 (GaussianBlur3 Toy.lib Toy.face_img (0, 0)%nat (Fp.of_Z b64 2)) 0 0
      = Some g /\
    at2 (RoopCore.apply_sharpening Toy.lib Toy.face_img) 0 0
      = Some (zip3 spec_sharpen (x10, x20, x30) g).
Proof.
  pose proof (refine_color_transfer_then_sharpening Toy.lib b32)
    as (_ & Hcolor & Hsharp).
  split.
  - erewrite Hcolor; [|reflexivity..]. vm_compute. reflexivity.
  - eexists. split; [lazy; reflexivity|].
    apply Hsharp; [reflexivity|lazy; reflexivity].
Defined.

Local Open Scope Z_scope.

(** ** The soft mask *)

Section WeightedSums.

Lemma Qsum_app ka kb : (Qsum (ka ++ kb) == Qsum ka + Qsum kb)%Q.
Proof.
  induction ka as [|c ka IH]; simpl; [lra|]. rewrite IH. lra.
Qed.

Lemma Qsum_le_length (c : Q) k :
  Forall (fun q => (q <= c)%Q) k ->
  (Qsum k <= inject_Z (Z.of_nat (length k)) * c)%Q.
Proof.
  induction 1 as [|q k Hq _ IH]; simpl length; simpl Qsum.
  - change (inject_Z (Z.of_nat 0)) with 0%Q. lra.
  - rewrite Nat2Z.inj_succ, <- Z.add_1_r, inject_Z_plus.
    set (n := inject_Z (Z.of_nat (length k))) in *.
    change (inject_Z 1) with 1%Q.
    assert (E : ((n + 1) * c == n * c + c)%Q) by ring. rewrite E.
    lra.
Qed.

Lemma wsum_app ka kb f i :
  (wsum (ka ++ kb) f i ==
   wsum ka f i + wsum kb f (i + Z.of_nat (length ka)))%Q.
Proof.
  revert i. induction ka as [|c ka IH]; intros i.
  - simpl. rewrite Z.add_0_r. lra.
  - simpl app. simpl wsum. rewrite IH.
    replace (i + Z.of_nat (S (length ka)))
      with (i + 1 + Z.of_nat (length ka)) by lia.
    ring.
Qed.

Lemma wsum_upper (c : Q) k f i :
  Forall (fun q => (0 <= q)%Q) k ->
  (forall j, i <= j < i + Z.of_nat (length k) -> (f j <= c)%Q) ->
  (wsum k f i <= c * Qsum k)%Q.
Proof.
  intros Hk. revert i. induction Hk as [|q k Hq _ IH]; intros i Hf; simpl.
  - lra.
  - assert (H1 : (f i <= c)%Q) by (apply Hf; simpl length; lia).
    assert (H2 : (wsum k f (i + 1) <= c * Qsum k)%Q).
    { apply IH. intros j Hj. apply Hf. simpl length. lia. }
    nra.
Qed.

Lemma wsum_lower (c : Q) k f i :
  Forall (fun q => (0 <= q)%Q) k ->
  (forall j, i <= j < i + Z.of_nat (length k) -> (c <= f j)%Q) ->
  (c * Qsum k <= wsum k f i)%Q.
Proof.
  intros Hk. revert i. induction Hk as [|q k Hq _ IH]; intros i Hf; simpl.
  - lra.
  - assert (H1 : (c <= f i)%Q) by (apply Hf; simpl length; lia).
    assert (H2 : (c * Qsum k <= wsum k f (i + 1))%Q).
    { apply IH. intros j Hj. apply Hf. simpl length. lia. }
    nra.
Qed.

End WeightedSums.

Section Rounding.

Lemma u8_to_Z_range (b : u8) : 0 <= u8_to_Z b <= 255.
Proof.
  unfold u8_to_Z. pose proof (Byte.to_N_bounded b). lia.
Qed.

Lemma u8_of_Z_to_Z (z : Z) : 0 <= z <= 255 -> u8_to_Z (u8_of_Z z) = z.
Proof.
  intros Hz. unfold u8_of_Z, u8_to_Z.
  rewrite Z.mod_small by lia.
  destruct (Byte.of_N (Z.to_N z)) as [b|] eqn:E.
  - apply Byte.to_of_N in E. rewrite E. lia.
  - apply Byte.of_N_None_iff in E. lia.
Qed.

Lemma u8_saturate_to_Z (z : Z) :
  u8_to_Z (u8_saturate z) = Z.max 0 (Z.min 255 z).
Proof. unfold u8_saturate. apply u8_of_Z_to_Z. lia. Qed.

Lemma Qrint_cases (q : Q) : Qrint q = Qfloor q \/ Qrint q = Qfloor q + 1.
Proof.
  unfold Qrint. destruct (_ ?= _)%Q; auto. destruct (Z.even _); auto.
Qed.

(** Rounding never crosses an integer. *)
Lemma Qrint_lower (q : Q) (z : Z) : (inject_Z z <= q)%Q -> z <= Qrint q.
Proof.
  intros H. apply Qfloor_resp_le in H. rewrite Qfloor_Z in H.
  destruct (Qrint_cases q) as [-> | ->]; lia.
Qed.

Lemma Qrint_upper (q : Q) (z : Z) : (q <= inject_Z z)%Q -> Qrint q <= z.
Proof.
  intros H. pose proof (Qfloor_le q) as Hf.
  assert (Hfz : Qfloor q <= z).
  { apply Qfloor_resp_le in H. by rewrite Qfloor_Z in H. }
  unfold Qrint.
  destruct (Qcompare_spec (q - inject_Z (Qfloor q)) (1 # 2)) as [E|E|E];
    [|done|].
  - assert (Hlt : Qfloor q < z).
    { destruct (Z.eq_dec (Qfloor q) z) as [Heq|]; [|lia].
      rewrite Heq in E. lra. }
    destruct (Z.even _); lia.
  - assert (Hlt : Qfloor q < z).
    { destruct (Z.eq_dec (Qfloor q) z) as [Heq|]; [|lia].
      rewrite Heq in E. lra. }
    lia.
Qed.

End Rounding.

Section SoftMask.

Variable k : list Q.
Variable m : list (list u8).
Hypothesis Hk : smoothing_kernel 7 k.
Hypothesis Hrows : length m = 128%nat.
Hypothesis Hcols : Forall (fun r => length r = 128%nat) m.

Lemma kernel_length : length k = 15%nat.
Proof.
  destruct (sk_split _ _ Hk) as (ka & c & kb & -> & Ha & Hb & _).
  rewrite length_app. simpl. lia.
Qed.

Lemma mask_shape : shape m = (128, 128)%nat.
Proof. apply shape_of_dims; auto. lia. Qed.

Lemma reflect101_inside (i : Z) : 0 <= i < 128 -> reflect101 128 i = i.
Proof.
  intros Hi. unfold reflect101. change (128 <=? 1) with false.
  cbv beta iota zeta. rewrite Z.mod_small; [|lia].
  destruct (Z.ltb_spec i 128); [reflexivity|lia].
Qed.

Lemma tap_range (y x : Z) : (0 <= tap m y x <= 255)%Q.
Proof.
  unfold tap. destruct (shape m) as [h w].
  destruct (at2 _ _ _) as [b|].
  - pose proof (u8_to_Z_range b) as [H0 H1].
    split.
    + change 0%Q with (inject_Z 0). by rewrite <- Zle_Qle.
    + change 255%Q with (inject_Z 255). by rewrite <- Zle_Qle.
  - lra.
Qed.

Lemma tap_inside (y x : nat) (v : u8) :
  at2 m y x = Some v ->
  tap m (Z.of_nat y) (Z.of_nat x) = inject_Z (u8_to_Z v).
Proof.
  intros Hv. unfold tap. rewrite mask_shape.
  assert (Hy : (y < 128)%nat).
  { unfold at2 in Hv. destruct (m !! y) eqn:E; [|done].
    apply lookup_lt_Some in E. lia. }
  assert (Hx : (x < 128)%nat).
  { unfold at2 in Hv. destruct (m !! y) as [r|] eqn:E; [|done].
    apply lookup_lt_Some in Hv.
    rewrite (proj1 (Forall_lookup _ _) Hcols _ _ E) in Hv. lia. }
  rewrite !reflect101_inside by lia. rewrite !Nat2Z.id. by rewrite Hv.
Qed.

Lemma conv_blur_at (y x : nat) :
  (y < 128)%nat -> (x < 128)%nat ->
  at2 (conv_blur k m) y x =
    Some (u8_saturate (Qrint (conv_at k m (Z.of_nat y) (Z.of_nat x)))).
Proof.
  intros Hy Hx. unfold conv_blur. rewrite mask_shape.
  by rewrite tabulate2d_at.
Qed.

Lemma conv_at_unfold (y x : Z) :
  conv_at k m y x =
    wsum k (fun yy => wsum k (fun xx => tap m yy xx) (x - 7)) (y - 7).
Proof. unfold conv_at. by rewrite kernel_length. Qed.

(** Where the whole window is fully opaque, so is the result. *)
Lemma blur_opaque (y x : nat) :
  (forall yy xx : nat,
      (y - 7 <= yy <= y + 7)%nat -> (x - 7 <= xx <= x + 7)%nat ->
      at2 m yy xx = Some xff) ->
  (7 <= y < 121)%nat -> (7 <= x < 121)%nat ->
  at2 (conv_blur k m) y x = Some xff.
Proof.
  intros Hwin Hy Hx. rewrite conv_blur_at by lia. f_equal.
  assert (Hq : (inject_Z 255 <= conv_at k m (Z.of_nat y) (Z.of_nat x))%Q).
  { rewrite conv_at_unfold.
    pose proof (sk_nonneg _ _ Hk) as Hnn. pose proof (sk_sum _ _ Hk) as Hs.
    change (inject_Z 255) with 255%Q.
    assert (E : (255 <= 255 * Qsum k)%Q) by (rewrite Hs; lra).
    apply (Qle_trans _ _ _ E). apply wsum_lower; [done|].
    rewrite kernel_length. intros yy Hyy.
    apply (Qle_trans _ _ _ E). apply wsum_lower; [done|].
    rewrite kernel_length. intros xx Hxx.
    replace yy with (Z.of_nat (Z.to_nat yy)) by lia.
    replace xx with (Z.of_nat (Z.to_nat xx)) by lia.
    rewrite (tap_inside _ _ xff); [compute; discriminate|].
    apply Hwin; lia. }
  apply Qrint_lower in Hq.
  assert (Hz : u8_to_Z (u8_saturate
                 (Qrint (conv_at k m (Z.of_nat y) (Z.of_nat x)))) = 255).
  { rewrite u8_saturate_to_Z. lia. }
  revert Hz. generalize (u8_saturate
                 (Qrint (conv_at k m (Z.of_nat y) (Z.of_nat x)))).
  intros b. destruct b; vm_compute; congruence.
Qed.

(** A pixel that is zero before the blur stays below full opacity. *)
Lemma blur_of_zero (y x : nat) :
  at2 m y x = Some x00 ->
  exists b, at2 (conv_blur k m) y x = Some b /\ u8_to_Z b <= 254.
Proof.
  intros H0.
  assert (Hy : (y < 128)%nat).
  { unfold at2 in H0. destruct (m !! y) eqn:E; [|done].
    apply lookup_lt_Some in E. lia. }
  assert (Hx : (x < 128)%nat).
  { unfold at2 in H0. destruct (m !! y) as [r|] eqn:E; [|done].
    apply lookup_lt_Some in H0.
    rewrite (proj1 (Forall_lookup _ _) Hcols _ _ E) in H0. lia. }
  eexists. split; [by apply conv_blur_at|].
  rewrite u8_saturate_to_Z.
  assert (Hq : (conv_at k m (Z.of_nat y) (Z.of_nat x) <= inject_Z 254)%Q).
  { rewrite conv_at_unfold.
    pose proof (sk_nonneg _ _ Hk) as Hnn. pose proof (sk_sum _ _ Hk) as Hs.
    pose proof kernel_length as Hlen.
    destruct (sk_split _ _ Hk) as (ka & c & kb & Ek & Ha & Hb & Hmax).
    assert (Hc15 : (1 <= 15 * c)%Q).
    { pose proof (Qsum_le_length c k Hmax) as Hle.
      rewrite Hs, Hlen in Hle. exact Hle. }
    subst k.
    apply Forall_app in Hnn as [Hna Hnb].
    apply Forall_cons in Hnb as [Hc Hnb].
    rewrite Qsum_app in Hs. simpl Qsum in Hs.
    set (A := Qsum ka) in *. set (B := Qsum kb) in *.
    set (T := fun xx => tap m (Z.of_nat y) xx).
    set (R := fun yy => wsum (ka ++ c :: kb) (fun xx => tap m yy xx)
                             (Z.of_nat x - 7)).
    assert (HT : forall j, (T j <= 255)%Q) by (intros j; apply tap_range).
    assert (HR : forall j, (R j <= 255)%Q).
    { intros j. unfold R.
      apply Qle_trans with (255 * Qsum (ka ++ c :: kb))%Q.
      - apply wsum_upper; [by apply Forall_app; split; [|constructor]|].
        intros. apply tap_range.
      - rewrite Qsum_app. simpl Qsum. fold A B. rewrite Hs. lra. }
    assert (HRy : (R (Z.of_nat y) <= 255 * (A + B))%Q).
    { unfold R. rewrite wsum_app. simpl wsum. rewrite Ha.
      replace (Z.of_nat x - 7 + Z.of_nat 7) with (Z.of_nat x) by lia.
      rewrite (tap_inside _ _ _ H0).
      change (inject_Z (u8_to_Z x00)) with 0%Q.
      pose proof (wsum_upper 255 ka T (Z.of_nat x - 7) Hna
                    (fun j _ => HT j)) as H1.
      pose proof (wsum_upper 255 kb T (Z.of_nat x + 1) Hnb
                    (fun j _ => HT j)) as H2.
      fold A B in H1, H2. unfold T in H1, H2. lra. }
    rewrite wsum_app. simpl wsum. rewrite Ha.
    replace (Z.of_nat y - 7 + Z.of_nat 7) with (Z.of_nat y) by lia.
    fold R.
    pose proof (wsum_upper 255 ka R (Z.of_nat y - 7) Hna
                  (fun j _ => HR j)) as H1.
    pose proof (wsum_upper 255 kb R (Z.of_nat y + 1) Hnb
                  (fun j _ => HR j)) as H2.
    fold A B in H1, H2.
    change (inject_Z 254) with 254%Q.
    assert (H3 : (c * R (Z.of_nat y) <= c * (255 * (A + B)))%Q) by nra.
    assert (H4 : (A + B == 1 - c)%Q) by lra.
    rewrite H4 in H3.
    assert (H5 : (1 <= 225 * (c * c))%Q) by nra.
    nra. }
  apply Qrint_upper in Hq. lia.
Qed.

End SoftMask.

(** C7. The mask starts as a 128x128 single-channel array of 255; a
    border stroke of thickness 10 is set to zero along the outline and the
    result is blurred with a 15x15 Gaussian.  Given the stroke and the blur
    as OpenCV documents them, the mask keeps its size, the four central
    pixels stay fully opaque, and each of the four corner pixels is strictly
    less opaque than they are. *)
Theorem soft_mask_corners_below_center (L : Lib) (k : list Q) :
  let stroked := rectangle L RoopCore.mask_base (0, 0) (128, 128) x00 10 in
  smoothing_kernel 7 k ->
  border_stroke RoopCore.mask_base stroked ->
  GaussianBlur L stroked (15, 15)%nat (Fp.of_Z b64 0) = conv_blur k stroked ->
  RoopCore.soft_mask L = GaussianBlur L stroked (15, 15)%nat (Fp.of_Z b64 0) /\
  (shape RoopCore.mask_base = (128, 128)%nat /\
   forall y x, (y < 128)%nat -> (x < 128)%nat ->
     at2 RoopCore.mask_base y x = Some xff) /\
  shape (RoopCore.soft_mask L) = (128, 128)%nat /\
  forall yc xc ym xm,
    (yc = 0 \/ yc = 127)%nat -> (xc = 0 \/ xc = 127)%nat ->
    (ym = 63 \/ ym = 64)%nat -> (xm = 63 \/ xm = 64)%nat ->
    exists c,
      at2 (RoopCore.soft_mask L) yc xc = Some c /\
      at2 (RoopCore.soft_mask L) ym xm = Some xff /\
      u8_to_Z c < u8_to_Z xff.
Proof.
  intros stroked Hk Hs Hblur.
  assert (Hbase : forall y x, (y < 128)%nat -> (x < 128)%nat ->
             at2 RoopCore.mask_base y x = Some xff).
  { intros y x Hy Hx. unfold at2, RoopCore.mask_base.
    rewrite lookup_replicate_2 by done. by rewrite lookup_replicate_2. }
  assert (Hsoft : RoopCore.soft_mask L = conv_blur k stroked) by exact Hblur.
  pose proof (bs_rows _ _ Hs) as Hrows. pose proof (bs_cols _ _ Hs) as Hcols.
  split; [reflexivity|].
  split; [split; [reflexivity|exact Hbase]|]. split.
  - rewrite Hsoft. unfold conv_blur.
    rewrite (mask_shape stroked Hrows Hcols).
    apply shape_of_dims; [apply tabulate2d_rows|apply tabulate2d_cols|lia].
  - intros yc xc ym xm Hyc Hxc Hym Hxm. rewrite Hsoft.
    destruct (blur_of_zero k stroked Hk Hrows Hcols yc xc) as (c & Hc & Hle).
    { by apply (bs_corners _ _ Hs). }
    exists c. split; [exact Hc|]. split.
    + apply (blur_opaque k stroked Hk Hrows Hcols); [|lia|lia].
      intros yy xx Hyy Hxx.
      rewrite (bs_inside _ _ Hs) by lia. apply Hbase; lia.
    + change (u8_to_Z xff) with 255. lia.
Qed.

Lemma toy_kernel_smoothing : smoothing_kernel 7 Toy.kernel.
Proof.
  split.
  - exists [0; 0; 0; 0; 1 # 64; 6 # 64; 15 # 64]%Q, (20 # 64)%Q,
           [15 # 64; 6 # 64; 1 # 64; 0; 0; 0; 0]%Q.
    repeat split; repeat constructor; discriminate.
  - repeat constructor; discriminate.
  - reflexivity.
Qed.

Lemma toy_stroke_at (img : list (list u8)) p1 p2 colour t y x :
  at2 (Toy.stroke img p1 p2 colour t) y x =
    (fun v =>
       if (((Z.abs (Z.of_nat x - fst p1) <=? t / 2)
            || (Z.abs (Z.of_nat x - fst p2) <=? t / 2))
           && ((snd p1 - t / 2 <=? Z.of_nat y)
               && (Z.of_nat y <=? snd p2 + t / 2)))
          || (((Z.abs (Z.of_nat y - snd p1) <=? t / 2)
               || (Z.abs (Z.of_nat y - snd p2) <=? t / 2))
              && ((fst p1 - t / 2 <=? Z.of_nat x)
                  && (Z.of_nat x <=? fst p2 + t / 2)))
       then colour else v) <$> at2 img y x.
Proof.
  unfold at2, Toy.stroke. rewrite list_lookup_imap.
  destruct (img !! y) as [r|]; simpl; [|done].
  by rewrite list_lookup_imap.
Qed.

Lemma toy_stroke_cols (img : list (list u8)) p1 p2 colour t (w : nat) :
  Forall (fun r => length r = w) img ->
  Forall (fun r => length r = w) (Toy.stroke img p1 p2 colour t).
Proof.
  intros H. apply Forall_lookup. intros y r.
  unfold Toy.stroke. rewrite list_lookup_imap.
  destruct (img !! y) as [r0|] eqn:E; [|done].
  intros [= <-]. rewrite length_imap.
  exact (proj1 (Forall_lookup _ _) H _ _ E).
Qed.

Lemma toy_border_stroke :
  border_stroke RoopCore.mask_base
    (rectangle Toy.lib RoopCore.mask_base (0, 0) (128, 128) x00 10).
Proof.
  assert (Hbase : forall y x, (y < 128)%nat -> (x < 128)%nat ->
             at2 RoopCore.mask_base y x = Some xff).
  { intros y x Hy Hx. unfold at2, RoopCore.mask_base.
    rewrite lookup_replicate_2 by done. by rewrite lookup_replicate_2. }
  split.
  - change (rectangle Toy.lib) with Toy.stroke.
    unfold Toy.stroke. rewrite length_imap. reflexivity.
  - change (rectangle Toy.lib) with Toy.stroke.
    apply toy_stroke_cols. unfold RoopCore.mask_base.
    apply Forall_replicate. apply length_replicate.
  - intros y x Hy Hx. change (rectangle Toy.lib) with Toy.stroke.
    rewrite toy_stroke_at.
    rewrite Hbase by lia. simpl fst; simpl snd.
    destruct Hy as [-> | ->], Hx as [-> | ->]; reflexivity.
  - intros y x Hy Hx. change (rectangle Toy.lib) with Toy.stroke.
    rewrite toy_stroke_at.
    rewrite Hbase by lia. simpl fst; simpl snd. simpl fmap. f_equal.
    change (10 / 2) with 5.
    rewrite (proj2 (Z.leb_gt _ _)) by lia.
    rewrite (proj2 (Z.leb_gt (Z.abs (Z.of_nat x - 128)) 5)) by lia.
    rewrite (proj2 (Z.leb_gt (Z.abs (Z.of_nat y - 0)) 5)) by lia.
    rewrite (proj2 (Z.leb_gt (Z.abs (Z.of_nat y - 128)) 5)) by lia.
    reflexivity.
Qed.

Lemma soft_mask_corners_below_center_witness :
  smoothing_kernel 7 Toy.kernel /\
  border_stroke RoopCore.mask_base
    (rectangle Toy.lib RoopCore.mask_base (0, 0) (128, 128) x00 10) /\
  exists c,
    at2 (RoopCore.soft_mask Toy.lib) 0 127 = Some c /\
    at2 (RoopCore.soft_mask Toy.lib) 64 63 = Some xff /\
    u8_to_Z c < u8_to_Z xff.
Proof.
  split; [exact toy_kernel_smoothing|]. split; [exact toy_border_stroke|].
  apply (soft_mask_corners_below_center Toy.lib Toy.kernel
           toy_kernel_smoothing toy_border_stroke eq_refl); auto.
Defined.

(** ** Runs in the small world *)

Local Open Scope string_scope.
Local Open Scope list_scope.

(** The toy world end to end: both scripts on a face, and on a blank
    source. *)
Example toy_roop_swap_succeeds :
  fst (run (RoopCore.swap Toy.lib b32 "face.png" "face.png" "o.png"))
    = Ok true.
Proof.
  unfold run.
  erewrite (roop_swap_success Toy.lib b32 "face.png" "face.png" "o.png"
              Toy.face_img Toy.face_img); reflexivity.
Qed.

Example toy_insight_main_exit_codes :
  exit_status
    (fst (run (FaceSwapPipeline.main Toy.insight "face.png" "face.png"
                 "o.png"))) = 0%Z /\
  exit_status
    (fst (run (FaceSwapPipeline.main Toy.insight "blank.png" "face.png"
                 "o.png"))) = 1%Z /\
  exit_status
    (fst (run (FaceSwapPipeline.main Toy.insight "face.png" "missing.png"
                 "o.png"))) = 1%Z.
Proof. repeat split; vm_compute; reflexivity. Qed.

(** * More of the code *)

(** ** More on the blend *)

Lemma blend_px_alpha_one (f t : u8) :
  RoopCore.blend_px f (RoopCore.alpha xff) t = f.
Proof.
  unfold RoopCore.blend_px.
  replace (Fp.sub b32 (Fp.of_Z b32 1) (RoopCore.alpha xff))
    with (S754_zero false) by (vm_compute; reflexivity).
  replace (Fp.mul b32 (u8_to_F b32 t) (S754_zero false))
    with (S754_zero false) by (destruct t; reflexivity).
  destruct f; vm_compute; reflexivity.
Qed.

(** X1: in the paste-back, wherever the warped mask is 255 the output pixel
    is the warped face pixel, exactly: the target does not show through. *)
Theorem paste_back_opaque_is_face
    (L : Lib) (swapped target : image u8) (m : affine) :
  rect target ->
  let inv_M := invertAffineTransform L m in
  let w := snd (shape target) in
  let h := fst (shape target) in
  let warped_mask := warpAffine1 L (RoopCore.soft_mask L) inv_M w h in
  forall y x p,
    at2 warped_mask y x = Some xff ->
    at2 target y x = Some p ->
    at2 (RoopCore.paste_back L swapped target m) y x
      = Some (remap3 L swapped inv_M x y).
Proof.
  intros Hrect inv_M w h warped_mask y x p Hm Hp.
  destruct (at2_bounds _ _ _ _ Hrect Hp) as [Hy Hx].
  change (RoopCore.paste_back L swapped target m)
    with (RoopCore.blend (warpAffine3 L swapped inv_M w h) warped_mask target).
  unfold RoopCore.blend.
  erewrite zip2d_at; [| |exact Hp].
  2:{ eapply zip2d_at.
      - unfold warpAffine3. by apply tabulate2d_at.
      - rewrite map2d_at, Hm. reflexivity. }
  f_equal. simpl. destruct (remap3 _ _ _ _ _) as [[f1 f2] f3].
  destruct p as [[t1 t2] t3]. simpl.
  by rewrite !blend_px_alpha_one.
Qed.

Lemma paste_back_opaque_is_face_witness :
  at2 (warpAffine1 ToyShift.lib (RoopCore.soft_mask ToyShift.lib)
         Toy.unit_affine 2 2) 0 0 = Some xff /\
  at2 (RoopCore.paste_back ToyShift.lib ToyShift.crop Toy.face_img
         Toy.unit_affine) 0 0 = Some (x0a, x0b, x0c).
Proof.
  split; [lazy; reflexivity|].
  apply (paste_back_opaque_is_face ToyShift.lib ToyShift.crop Toy.face_img
           Toy.unit_affine toy_face_rect 0%nat 0%nat (x10, x20, x30));
    lazy; reflexivity.
Defined.

(** X2: blending a sample with itself gives the sample or one level less,
    whatever the mask value: the sum is truncated to uint8, and the loss
    does occur (sample 3 under mask 65 becomes 2). *)
Theorem blend_of_equal_samples :
  (forall v m : u8,
      RoopCore.blend_px v (RoopCore.alpha m) v = v \/
      u8_to_Z (RoopCore.blend_px v (RoopCore.alpha m) v) = u8_to_Z v - 1) /\
  RoopCore.blend_px x03 (RoopCore.alpha x41) x03 = x02.
Proof.
  split; [|vm_compute; reflexivity].
  assert (H : forallb (fun m =>
                let a := RoopCore.alpha m in
                let na := Fp.sub b32 (Fp.of_Z b32 1) a in
                forallb (fun v =>
                  let fv := u8_to_F b32 v in
                  let r := F_to_u8 (Fp.add b32 (Fp.mul b32 fv a)
                                               (Fp.mul b32 fv na)) in
                  Byte.eqb r v || Z.eqb (u8_to_Z r) (u8_to_Z v - 1))
                all_u8) all_u8 = true)
    by (vm_cast_no_check (eq_refl true)).
  intros v m.
  rewrite forallb_forall in H. specialize (H m (all_u8_complete m)).
  cbv zeta in H.
  rewrite forallb_forall in H. specialize (H v (all_u8_complete v)).
  cbv zeta in H. fold (RoopCore.blend_px v (RoopCore.alpha m) v) in H.
  apply orb_true_iff in H as [H|H].
  - left. by apply byte_dec_bl.
  - right. by apply Z.eqb_eq.
Qed.

(** ** Layout changes and the two tensors *)

Section Layout.
Context {A B C : Type}.

Lemma map2d_map2d (f : A -> B) (g : B -> C) (a : list (list A)) :
  map2d g (map2d f a) = map2d (fun v => g (f v)) a.
Proof.
  unfold map2d. rewrite <- list_fmap_compose. apply list_fmap_ext.
  intros _ r _. simpl. by rewrite <- list_fmap_compose.
Qed.

Lemma map2d_ext (f g : A -> B) (a : list (list A)) :
  (forall v, f v = g v) -> map2d f a = map2d g a.
Proof.
  intros H. unfold map2d. apply list_fmap_ext. intros _ r _.
  apply list_fmap_ext. auto.
Qed.

Lemma map2d_id (a : list (list A)) : map2d (fun v => v) a = a.
Proof.
  unfold map2d. induction a as [|r a IH]; [done|]. csimpl.
  by rewrite list_fmap_id, IH.
Qed.

(** Plane-major and back, with a function applied on the way. *)
Lemma of_planes_to_planes (f : A -> B) (img : list (list (px3 A))) :
  of_planes (map3 (map2d f) (to_planes img)) = map2d (map3 f) img.
Proof.
  unfold of_planes, to_planes, map3, map2d.
  induction img as [|r img IH]; [done|]. csimpl. f_equal; [|exact IH].
  clear IH. induction r as [|[[a b] c] r IH]; [done|]. csimpl.
  by f_equal.
Qed.

End Layout.

Lemma unit_scale_round_trip (v : u8) :
  F_to_u8
    (Fp.clip (Fp.of_Z b32 0) (Fp.of_Z b32 255)
       (Fp.mul b32 (Fp.div b32 (u8_to_F b32 v) (Fp.of_Z b32 255))
                   (Fp.of_Z b32 255))) = v.
Proof. destruct v; vm_compute; reflexivity. Qed.

(** X3: scaling a crop to [0, 1] for the swap model and decoding a model
    output are inverse on every image: a model that returned its input
    would give back the aligned crop, sample for sample. *)
Theorem swap_output_of_swap_input (img : image u8) (tr : list event) :
  RoopCore.swap_output (RoopCore.swap_input img) tr = (Ok img, tr).
Proof.
  unfold RoopCore.swap_output, RoopCore.swap_input, ret. f_equal. f_equal.
  unfold RoopCore.decode_output.
  rewrite of_planes_to_planes, !map2d_map2d.
  rewrite <- (map2d_id img) at 2. apply map2d_ext.
  intros [[b g] r]. simpl. by rewrite !unit_scale_round_trip.
Qed.

Lemma embed_sample_exact (v : u8) :
  F_to_Q (Fp.div b32 (Fp.sub b32 (u8_to_F b32 v) (Fp.lit b32 255 2))
                     (Fp.of_Z b32 128))
  = Some (Qred ((2 * u8_to_Z v - 255) # 256)).
Proof. destruct v; vm_compute; reflexivity. Qed.

(** X4: the tensor handed to ArcFace is one batch of three planes in R, G,
    B order, and each sample is exactly [(v - 127.5) / 128], a multiple of
    1/256 strictly between -1 and 1: nothing is rounded. *)
Theorem embed_input_exact (img : image u8) (y x : nat) (b g r : u8) :
  at2 img y x = Some (b, g, r) ->
  exists R G B fr fg fb,
    RoopCore.embed_input img = [ (R, G, B) ] /\
    at2 R y x = Some fr /\ at2 G y x = Some fg /\ at2 B y x = Some fb /\
    F_to_Q fr = Some (Qred ((2 * u8_to_Z r - 255) # 256)) /\
    F_to_Q fg = Some (Qred ((2 * u8_to_Z g - 255) # 256)) /\
    F_to_Q fb = Some (Qred ((2 * u8_to_Z b - 255) # 256)).
Proof.
  intros Hp. unfold RoopCore.embed_input, to_planes, map3.
  do 6 eexists. split; [reflexivity|].
  rewrite !map2d_map2d, !map2d_at, Hp. simpl.
  repeat split; apply embed_sample_exact.
Qed.

Lemma embed_input_exact_witness :
  exists R G B fr fg fb,
    RoopCore.embed_input Toy.face_img = [ (R, G, B) ] /\
    at2 R 0 0 = Some fr /\ at2 G 0 0 = Some fg /\ at2 B 0 0 = Some fb /\
    F_to_Q fr = Some ((-159) # 256)%Q /\
    F_to_Q fg = Some ((-191) # 256)%Q /\
    F_to_Q fb = Some ((-223) # 256)%Q.
Proof.
  exact (embed_input_exact Toy.face_img 0 0 x10 x20 x30 eq_refl).
Defined.

(** ** The embedder and the Aligner at their edges *)

(** X5: [get_embedding] does not guard the division by the norm: when the
    model answers zeros, whose norm is zero, it returns NaN in every
    component and raises nothing. *)
Theorem get_embedding_zero_norm (L : Lib) (face_img : image u8)
    (tr : list event) :
  let raw := arcface_run L (RoopCore.embed_input face_img) in
  Forall (Forall is_zero) raw ->
  linalg_norm L raw = S754_zero false ->
  exists out,
    RoopCore.get_embedding L face_img tr =
      (Ok out, tr ++ [EvArcface (RoopCore.embed_input face_img)]) /\
    length out = length raw /\
    Forall (Forall (fun v => v = S754_nan)) out.
Proof.
  intros raw Hz Hn. eexists. split; [reflexivity|].
  fold raw. unfold RoopCore.normalize. rewrite Hn. split.
  - apply map2d_rows.
  - unfold map2d. apply Forall_fmap.
    eapply Forall_impl; [exact Hz|]. intros row Hrow. simpl.
    apply Forall_fmap. eapply Forall_impl; [exact Hrow|].
    intros v [s ->]. reflexivity.
Qed.

Lemma get_embedding_zero_norm_witness :
  Forall (Forall is_zero)
         (arcface_run ToyZero.lib (RoopCore.embed_input Toy.face_img)) /\
  fst (run (RoopCore.get_embedding ToyZero.lib Toy.face_img))
    = Ok [ [ S754_nan; S754_nan ] ].
Proof.
  assert (Hz : Forall (Forall is_zero)
                 (arcface_run ToyZero.lib (RoopCore.embed_input Toy.face_img))).
  { repeat constructor; by eexists. }
  split; [exact Hz|].
  destruct (get_embedding_zero_norm ToyZero.lib Toy.face_img [] Hz eq_refl)
    as (out & Hrun & _ & _).
  reflexivity.
Defined.

(** X6: whenever [norm_crop] returns, the image was readable, the matrix is
    the one the estimator gave for the landmarks against [ARC_FACE_DST],
    and the crop is [image_size] by [image_size]. *)
Theorem norm_crop_returns_square (L : Lib) (img : option (image u8))
    (landmark : list pt) (image_size : nat) (tr : list event)
    (crop : image u8) (a : affine) :
  fst (RoopCore.norm_crop L img landmark image_size tr) = Ok (crop, a) ->
  estimateAffinePartial2D L landmark ARC_FACE_DST = Ok (Some a) /\
  (exists i, img = Some i /\ crop = warpAffine3 L i a image_size image_size) /\
  length crop = image_size /\
  Forall (fun r => length r = image_size) crop.
Proof.
  unfold RoopCore.norm_crop, RoopCore.estimate, RoopCore.warp_args,
    bind, emit, lift, ret, raise.
  destruct (estimateAffinePartial2D L landmark ARC_FACE_DST)
    as [[a'|]|e]; simpl; try discriminate;
    destruct img as [i|]; simpl; try discriminate.
  intros [= <- <-]. split; [done|]. split; [by exists i|].
  split; [apply tabulate2d_rows|apply tabulate2d_cols].
Qed.

Lemma norm_crop_returns_square_witness :
  exists crop a,
    fst (run (RoopCore.norm_crop Toy.lib (Some Toy.face_img) ARC_FACE_DST 112))
      = Ok (crop, a) /\
    length crop = 112%nat.
Proof.
  exists (warpAffine3 Toy.lib Toy.face_img Toy.unit_affine 112 112),
         Toy.unit_affine.
  assert (H : fst (run (RoopCore.norm_crop Toy.lib (Some Toy.face_img)
                          ARC_FACE_DST 112))
              = Ok (warpAffine3 Toy.lib Toy.face_img Toy.unit_affine 112 112,
                    Toy.unit_affine)) by reflexivity.
  split; [exact H|].
  exact (proj1 (proj2 (proj2
    (norm_crop_returns_square Toy.lib _ _ _ _ _ _ H)))).
Defined.

(** ** The enhancements keep the crop's size *)

Section Sizes.
Context {A : Type}.



End Sizes.




(** ** Sharpening pushes away from the blur *)

Lemma u8_to_Z_inj (a b : u8) : u8_to_Z a = u8_to_Z b -> a = b.
Proof.
  unfold u8_to_Z. intros E. apply N2Z.inj in E.
  apply (f_equal Byte.of_N) in E. rewrite !Byte.of_to_N in E.
  by injection E.
Qed.

Lemma spec_sharpen_away (o b : u8) : sharpened_away o b (spec_sharpen o b).
Proof.
  assert (H : forallb (fun o => forallb (fun b =>
                let s := u8_to_Z (spec_sharpen o b) in
                implb (u8_to_Z b <=? u8_to_Z o)%Z (u8_to_Z o <=? s)%Z
                && implb (u8_to_Z o <=? u8_to_Z b)%Z (s <=? u8_to_Z o)%Z)
              all_u8) all_u8 = true)
    by (vm_cast_no_check (eq_refl true)).
  rewrite forallb_forall in H. specialize (H o (all_u8_complete o)).
  rewrite forallb_forall in H. specialize (H b (all_u8_complete b)).
  apply andb_true_iff in H as [H1 H2]. split.
  - intros Hle. apply Z.leb_le in Hle. rewrite Hle in H1.
    by apply Z.leb_le.
  - intros Hle. apply Z.leb_le in Hle. rewrite Hle in H2.
    by apply Z.leb_le.
Qed.

(** X8: a sharpened sample is never between the original and the blurred
    one: where the original is at least the blur the result is at least
    the original, where it is at most the blur the result is at most the
    original, so flat areas stay as they are and bright or dark extremes
    stop at 255 or 0 instead of wrapping. *)
Theorem apply_sharpening_away (L : Lib) (img : image u8) (y x : nat)
    (p g : px3 u8) :
  at2 img y x = Some p ->
  at2 (GaussianBlur3 L img (0, 0)%nat (Fp.of_Z b64 2)) y x = Some g ->
  exists s,
    at2 (RoopCore.apply_sharpening L img) y x = Some s /\
    sharpened_away3 p g s /\
    (g = p -> s = p).
Proof.
  intros Hp Hg. exists (zip3 spec_sharpen p g).
  split; [by apply apply_sharpening_at|].
  destruct p as [[p1 p2] p3], g as [[g1 g2] g3]. simpl. split.
  - repeat split; apply spec_sharpen_away.
  - intros [= -> -> ->].
    assert (Hfix : forall a, spec_sharpen a a = a).
    { intros a. destruct (spec_sharpen_away a a) as [H1 H2].
      specialize (H1 ltac:(lia)). specialize (H2 ltac:(lia)).
      apply u8_to_Z_inj. lia. }
    by rewrite !Hfix.
Qed.

Lemma apply_sharpening_away_witness :
  exists g s,
    at2 (GaussianBlur3 Toy.lib Toy.face_img (0, 0)%nat (Fp.of_Z b64 2)) 0 0
      = Some g /\
    at2 (RoopCore.apply_sharpening Toy.lib Toy.face_img) 0 0 = Some s /\
    sharpened_away3 (x10, x20, x30) g s.
Proof.
  eexists.
  destruct (apply_sharpening_away Toy.lib Toy.face_img 0 0 (x10, x20, x30) _
              eq_refl ltac:(lazy; reflexivity)) as (s & Hs & Ha & _).
  exists s. split; [lazy; reflexivity|]. split; [exact Hs|exact Ha].
Defined.

(** ** More runs of the raw-inference script *)

(** X9: a target without a face: [swap] returns [False] only after it has
    aligned the source and run ArcFace on it; the swap model is not called,
    nothing is written, and the script exits with status 0. *)
Theorem roop_main_no_target_face (L : Lib) (wp : Fp.fmt)
    (source target output : string) (simg timg : image u8)
    (lm : list landmark) (rest : list (list landmark))
    (p0 p1 p2 p3 p4 : landmark) (a : affine) :
  let kps := RoopCore.scale_landmark (fst (shape simg)) (snd (shape simg))
               <$> [p0; p1; p2; p3; p4] in
  imread L source = Some simg ->
  imread L target = Some timg ->
  detect L (map2d swap_rb simg) = lm :: rest ->
  lm !! 468%nat = Some p0 -> lm !! 473%nat = Some p1 ->
  lm !! 1%nat = Some p2 -> lm !! 61%nat = Some p3 ->
  lm !! 291%nat = Some p4 ->
  estimateAffinePartial2D L kps ARC_FACE_DST = Ok (Some a) ->
  detect L (map2d swap_rb timg) = [] ->
  run (RoopCore.swap L wp source target output) =
    (Ok false,
     [ EvImread source; EvImread target;
       EvDetect (map2d swap_rb simg);
       EvEstimate kps ARC_FACE_DST;
       EvArcface (RoopCore.embed_input (warpAffine3 L simg a 112 112));
       EvDetect (map2d swap_rb timg) ]) /\
  exit_status (fst (run (RoopCore.main L wp source target output))) = 0%Z.
Proof.
  intros kps Hs Ht Hd H0 H1 H2 H3 H4 He Hdt.
  assert (E : forall tr, RoopCore.swap L wp source target output tr =
    (Ok false,
     tr ++ [ EvImread source; EvImread target;
       EvDetect (map2d swap_rb simg);
       EvEstimate kps ARC_FACE_DST;
       EvArcface (RoopCore.embed_input (warpAffine3 L simg a 112 112));
       EvDetect (map2d swap_rb timg) ])).
  { intros tr. unfold RoopCore.swap. rewrite !bind_emit, Hs, Ht.
    erewrite bind_ok;
      [|exact (get_landmarks_face L simg lm rest p0 p1 p2 p3 p4 _
                 Hd H0 H1 H2 H3 H4)].
    cbv beta iota.
    erewrite bind_ok; [|exact (norm_crop_ok L simg _ 112 a _ He)].
    erewrite bind_ok; [|apply get_embedding_run].
    erewrite bind_ok; [|exact (get_landmarks_no_face L timg _ Hdt)].
    cbv beta iota zeta delta [fst]. unfold ret.
    by rewrite <- !app_assoc. }
  split; [exact (E [])|].
  unfold run, RoopCore.main. rewrite !bind_emit.
  erewrite bind_ok; [|apply E]. reflexivity.
Qed.

Lemma roop_main_no_target_face_witness :
  detect Toy.lib (map2d swap_rb Toy.blank_img) = [] /\
  fst (run (RoopCore.swap Toy.lib b32 "face.png" "blank.png" "o.png"))
    = Ok false.
Proof.
  split; [reflexivity|].
  exact (f_equal fst
    (proj1 (roop_main_no_target_face Toy.lib b32 "face.png" "blank.png"
            "o.png" Toy.face_img Toy.blank_img _ _ _ _ _ _ _ _
            eq_refl eq_refl eq_refl eq_refl eq_refl eq_refl eq_refl eq_refl
            eq_refl eq_refl))).
Defined.

(** X10: when the estimator finds no transform for the source landmarks (it
    returns no matrix, or raises), [swap] raises at once: neither model is
    called and nothing is written. *)
Theorem roop_swap_no_source_transform (L : Lib) (wp : Fp.fmt)
    (source target output : string) (simg : image u8)
    (lm : list landmark) (rest : list (list landmark))
    (p0 p1 p2 p3 p4 : landmark) (tr : list event) :
  let kps := RoopCore.scale_landmark (fst (shape simg)) (snd (shape simg))
               <$> [p0; p1; p2; p3; p4] in
  imread L source = Some simg ->
  detect L (map2d swap_rb simg) = lm :: rest ->
  lm !! 468%nat = Some p0 -> lm !! 473%nat = Some p1 ->
  lm !! 1%nat = Some p2 -> lm !! 61%nat = Some p3 ->
  lm !! 291%nat = Some p4 ->
  (forall a, estimateAffinePartial2D L kps ARC_FACE_DST <> Ok (Some a)) ->
  exists e,
    RoopCore.swap L wp source target output tr =
      (Raise e,
       tr ++ [ EvImread source; EvImread target;
               EvDetect (map2d swap_rb simg);
               EvEstimate kps ARC_FACE_DST ]).
Proof.
  intros kps Hs Hd H0 H1 H2 H3 H4 He.
  unfold RoopCore.swap. rewrite !bind_emit, Hs.
  erewrite bind_ok;
    [|exact (get_landmarks_face L simg lm rest p0 p1 p2 p3 p4 _
               Hd H0 H1 H2 H3 H4)].
  cbv beta iota. fold kps.
  destruct (estimateAffinePartial2D L kps ARC_FACE_DST) as [[a|]|e] eqn:E.
  - by destruct (He a).
  - exists (CvError "warpAffine: bad argument").
    erewrite bind_fail; cycle 1.
    { unfold RoopCore.norm_crop.
      erewrite bind_ok; [|rewrite estimate_run, E; reflexivity].
      reflexivity. }
    by rewrite <- !app_assoc.
  - exists e.
    erewrite bind_fail; cycle 1.
    { unfold RoopCore.norm_crop.
      erewrite bind_fail; [reflexivity|]. by rewrite estimate_run, E. }
    by rewrite <- !app_assoc.
Qed.

Lemma roop_swap_no_source_transform_witness :
  (forall a, estimateAffinePartial2D ToyLost.lib ARC_FACE_DST ARC_FACE_DST
               <> Ok (Some a)) /\
  exists e,
    fst (run (RoopCore.swap ToyLost.lib b32 "face.png" "face.png" "o.png"))
      = Raise e.
Proof.
  split; [discriminate|].
  destruct (roop_swap_no_source_transform ToyLost.lib b32 "face.png"
              "face.png" "o.png" Toy.face_img _ _ _ _ _ _ _ []
              eq_refl eq_refl eq_refl eq_refl eq_refl eq_refl eq_refl)
    as [e He]; [discriminate|].
  exists e. unfold run. by rewrite He.
Defined.

(** ** Written files *)


Section Quiet.

Context {A B : Type}.






End Quiet.






Section RoopQuiet.

Variable L : Lib.








End RoopQuiet.


(** ** The InsightFace script *)

Section InsightRuns.

Context {face : Type} (I : Insight face).



End InsightRuns.






(** ** The setup script *)

Section Setup.
Import SetupModels.
Variable W : World.

Lemma exists_record p e st : exists_ p (record e st) = exists_ p st.
Proof. reflexivity. Qed.

Lemma requests_record_say msg st :
  requests (record (Say msg) st) = requests st.
Proof.
  unfold requests, record. simpl. rewrite omap_app. simpl.
  by rewrite app_nil_r.
Qed.

Lemma requests_record_get url st :
  requests (record (Get url) st) = requests st ++ [url].
Proof. unfold requests, record. simpl. by rewrite omap_app. Qed.

(** The writing loop appends the whole body to the file, if it is there,
    and touches nothing else. *)
Lemma write_chunks_state p chunks st :
  files (write_chunks p chunks st)
    = alter (fun c => c ++ concat chunks) p (files st) /\
  dirs (write_chunks p chunks st) = dirs st /\
  log (write_chunks p chunks st) = log st.
Proof.
  revert st. induction chunks as [|chunk rest IH]; intros st; simpl.
  - split; [|done]. symmetry. apply map_eq. intros q.
    destruct (decide (p = q)) as [<-|Hne].
    + rewrite lookup_alter_eq. destruct (files st !! p); simpl; [|done].
      by rewrite app_nil_r.
    + by rewrite lookup_alter_ne.
  - destruct (IH (match chunk with [] => st | _ :: _ => append p chunk st end))
      as (Hf & Hd & Hl).
    rewrite Hf, Hd, Hl. destruct chunk as [|b chunk]; [done|].
    split; [|done]. simpl files. apply map_eq. intros q.
    destruct (decide (p = q)) as [<-|Hne].
    + rewrite !lookup_alter_eq. destruct (files st !! p); simpl; [|done].
      by rewrite <- app_assoc.
    + by rewrite !lookup_alter_ne.
Qed.

(** What the [try] block leaves behind. *)
Lemma attempt_state url p st :
  let out := attempt W url p st in
  dirs (snd out) = dirs st /\
  requests (snd out) = requests st ++ [url] /\
  (forall q, q <> p -> files (snd out) !! q = files st !! q) /\
  match fst out with
  | None =>
      exists r, http_get W url = inr r /\ status_error r = None /\
        from_option (int_error W) None (content_length r) = None /\
        open_error W p = None /\ stream_error r = None /\
        files (snd out) !! p = Some (concat (body r))
  | Some e =>
      (files (snd out) !! p = files st !! p \/
       is_Some (files (snd out) !! p)) /\
      (http_get W url = inl e \/
       exists r, http_get W url = inr r /\
         (status_error r = Some e \/
          from_option (int_error W) None (content_length r) = Some e \/
          open_error W p = Some e \/ stream_error r = Some e))
  end.
Proof.
  unfold attempt.
  destruct (http_get W url) as [msg|r] eqn:Hget; simpl.
  { rewrite requests_record_get. repeat split; auto. }
  destruct (status_error r) as [msg|] eqn:Hs; simpl.
  { rewrite requests_record_get. repeat split; eauto 10. }
  destruct (from_option _ _ _) as [msg|] eqn:Hi; simpl.
  { rewrite requests_record_get. repeat split; eauto 10. }
  destruct (open_error W p) as [msg|] eqn:Ho; simpl.
  { rewrite requests_record_get. repeat split; eauto 10. }
  pose proof (write_chunks_state p (body r) (create p (record (Get url) st)))
    as (Hf & Hd & Hl).
  assert (Hp : files (write_chunks p (body r) (create p (record (Get url) st)))
                 !! p = Some (concat (body r))).
  { rewrite Hf. simpl. by rewrite lookup_alter_eq, lookup_insert_eq. }
  assert (Hq : forall q, q <> p ->
             files (write_chunks p (body r) (create p (record (Get url) st)))
               !! q = files st !! q).
  { intros q Hne. rewrite Hf. simpl.
    rewrite lookup_alter_ne by done. by rewrite lookup_insert_ne. }
  assert (Hr : requests (write_chunks p (body r)
                           (create p (record (Get url) st)))
               = requests st ++ [url]).
  { unfold requests. rewrite Hl. simpl. by rewrite omap_app. }
  destruct (stream_error r) as [msg|] eqn:He; simpl.
  - rewrite Hd. repeat split; eauto 10.
  - rewrite requests_record_say. rewrite Hd.
    repeat split; eauto 10.
Qed.

Lemma download_file_existing url p st :
  exists_ p st = true ->
  download_file W url p st =
    record (Say ("✅ " ++ basename W p ++ " already exists.")) st.
Proof. intros H. unfold download_file. by rewrite H. Qed.

Lemma download_file_state url p st :
  (forall q, q <> p ->
     files (download_file W url p st) !! q = files st !! q) /\
  dirs (download_file W url p st) = dirs st /\
  requests (download_file W url p st) =
    requests st ++ (if exists_ p st then [] else [url]).
Proof.
  unfold download_file. destruct (exists_ p st) eqn:Hex; simpl.
  { rewrite requests_record_say, app_nil_r. done. }
  pose proof (attempt_state url p
                (record (Say ("⬇️ Downloading " ++ basename W p ++ "...")) st))
    as (Hd & Hr & Hq & _).
  rewrite requests_record_say in Hr. simpl in Hd.
  destruct (attempt W url p _) as [[e|] st1]; simpl in *.
  - destruct (exists_ p (record _ st1)); simpl;
      rewrite ?requests_record_say; repeat split; try done.
    + intros q Hne. rewrite lookup_delete_ne by done. by apply Hq.
    + unfold requests in *. simpl. rewrite omap_app. simpl.
      by rewrite app_nil_r.
  - repeat split; done.
Qed.

(** X15: [download_file] touches no other file and no directory; it sends one
    request when the path is free and none when it is taken, and then
    leaves the path as it was, whatever it holds. *)
Theorem download_file_frame url p st :
  let st' := download_file W url p st in
  (forall q, q <> p -> files st' !! q = files st !! q) /\
  dirs st' = dirs st /\
  requests st' = requests st ++ (if exists_ p st then [] else [url]) /\
  (exists_ p st = true -> files st' !! p = files st !! p).
Proof.
  intros st'. subst st'.
  destruct (download_file_state url p st) as (Hq & Hd & Hr).
  repeat split; try done.
  intros Hex. by rewrite download_file_existing.
Qed.

(** X16: on a free path [download_file] leaves either the complete body or
    no file: the file is there afterwards exactly when the request, the
    status check, the header, the open and the whole stream went through,
    and then it holds every chunk in order. *)
Theorem download_file_all_or_nothing url p st content :
  exists_ p st = false ->
  files (download_file W url p st) !! p = Some content <->
  exists r, http_get W url = inr r /\ status_error r = None /\
    from_option (int_error W) None (content_length r) = None /\
    open_error W p = None /\ stream_error r = None /\
    content = concat (body r).
Proof.
  intros Hex. unfold download_file. rewrite Hex.
  assert (Hnone : files st !! p = None /\ p ∉ dirs st).
  { unfold exists_ in Hex. apply orb_false_iff in Hex as [H1 H2].
    apply bool_decide_eq_false in H1, H2. split; [|done].
    by apply eq_None_not_Some. }
  destruct Hnone as [Hfile Hdir].
  pose proof (attempt_state url p
                (record (Say ("⬇️ Downloading " ++ basename W p ++ "...")) st))
    as (Hd & _ & _ & Hout).
  simpl in Hd.
  destruct (attempt W url p _) as [[e|] st1]; simpl in *.
  - destruct Hout as [Hp Hwhy].
    assert (Hgone : files (if exists_ p (record (Say ("❌ Failed to download "
                             ++ basename W p ++ ": " ++ e)) st1)
                           then remove p (record (Say ("❌ Failed to download "
                             ++ basename W p ++ ": " ++ e)) st1)
                           else record (Say ("❌ Failed to download "
                             ++ basename W p ++ ": " ++ e)) st1) !! p = None).
    { destruct (exists_ p (record _ st1)) eqn:Hex1; simpl.
      - apply lookup_delete_eq.
      - unfold exists_ in Hex1. apply orb_false_iff in Hex1 as [H1 _].
        apply bool_decide_eq_false in H1. simpl in H1.
        by apply eq_None_not_Some. }
    rewrite Hgone. split; [done|].
    intros (r & Hget & Hs & Hi & Ho & He & _).
    destruct Hwhy as [Hw|(r' & Hget' & Hw)]; [congruence|].
    assert (r' = r) as -> by congruence.
    destruct Hw as [Hw|[Hw|[Hw|Hw]]]; congruence.
  - destruct Hout as (r & Hget & Hs & Hi & Ho & He & Hp).
    rewrite Hp. split.
    + intros [= <-]. by exists r.
    + intros (r' & Hget' & _ & _ & _ & _ & ->).
      by assert (r' = r) as -> by congruence.
Qed.

(** X17: with both model files in place the script asks for nothing and
    changes no file. *)
Theorem main_nothing_to_do (d : string) st :
  exists_ (join W d "inswapper_128.onnx") st = true ->
  exists_ (join W d "w600k_r50.onnx") st = true ->
  requests (main W d st) = requests st /\ files (main W d st) = files st.
Proof.
  intros H1 H2. unfold main, MODELS. simpl foldl.
  set (st0 := record (Say "🚀 Setting up AI Models...")
                (if exists_ d st then st else makedirs d st)).
  assert (Hst0 : files st0 = files st /\ requests st0 = requests st /\
                 forall q, exists_ q st = true -> exists_ q st0 = true).
  { unfold st0. destruct (exists_ d st); simpl.
    - rewrite requests_record_say. done.
    - rewrite requests_record_say. repeat split; try done.
      intros q. unfold exists_. simpl. intros Hq.
      apply orb_true_iff in Hq as [Hq|Hq]; apply orb_true_iff;
        [by left|right].
      apply bool_decide_eq_true in Hq. apply bool_decide_eq_true.
      set_solver. }
  destruct Hst0 as (Hf0 & Hr0 & Hex0).
  rewrite (download_file_existing _ _ st0) by auto.
  rewrite download_file_existing by (rewrite exists_record; auto).
  rewrite !requests_record_say. done.
Qed.

Lemma exists_after_download url p q st :
  q <> p -> exists_ q (download_file W url p st) = exists_ q st.
Proof.
  intros Hne. destruct (download_file_state url p st) as (Hq & Hd & _).
  unfold exists_. by rewrite Hq, Hd.
Qed.

(** X18: with neither model file in place the script asks for both, in the
    order of [MODELS], whatever becomes of the first; it leaves the models
    directory behind and always ends on "Model setup complete." *)
Theorem main_tries_both (d : string) st :
  let p1 := join W d "inswapper_128.onnx" in
  let p2 := join W d "w600k_r50.onnx" in
  exists_ p1 st = false -> exists_ p2 st = false ->
  p1 <> p2 -> p1 <> d -> p2 <> d ->
  requests (main W d st) = requests st ++ (snd <$> MODELS) /\
  exists_ d (main W d st) = true /\
  last (log (main W d st)) = Some (Say "✨ Model setup complete.").
Proof.
  intros p1 p2 H1 H2 H12 H1d H2d. unfold main, MODELS. simpl foldl.
  set (st0 := record (Say "🚀 Setting up AI Models...")
                (if exists_ d st then st else makedirs d st)).
  assert (Hst0 : requests st0 = requests st /\ exists_ d st0 = true /\
                 forall q, q <> d -> exists_ q st0 = exists_ q st).
  { unfold st0. destruct (exists_ d st) eqn:Hd; simpl.
    - rewrite requests_record_say. done.
    - rewrite requests_record_say. repeat split; try done.
      + unfold exists_. simpl. apply orb_true_iff. right.
        apply bool_decide_eq_true. set_solver.
      + intros q Hq. unfold exists_. simpl. f_equal.
        apply bool_decide_ext.
        rewrite elem_of_union, elem_of_singleton.
        split; [intros [?|?]; done|by right]. }
  destruct Hst0 as (Hr0 & Hd0 & Hex0).
  fold p1 p2.
  destruct (download_file_state
              "https://huggingface.co/ezioruan/inswapper_128.onnx/resolve/main/inswapper_128.onnx"
              p1 st0) as (? & ? & Hr1).
  rewrite (Hex0 _ H1d), H1 in Hr1.
  assert (Hex1 : exists_ p2 (download_file W
              "https://huggingface.co/ezioruan/inswapper_128.onnx/resolve/main/inswapper_128.onnx"
              p1 st0) = false).
  { rewrite exists_after_download by done. by rewrite Hex0. }
  destruct (download_file_state
              "https://huggingface.co/ezioruan/inswapper_128.onnx/resolve/main/w600k_r50.onnx"
              p2 (download_file W
              "https://huggingface.co/ezioruan/inswapper_128.onnx/resolve/main/inswapper_128.onnx"
              p1 st0)) as (? & ? & Hr2).
  rewrite Hex1 in Hr2.
  split; [|split].
  - rewrite requests_record_say, Hr2, Hr1, Hr0. by rewrite <- app_assoc.
  - rewrite exists_record.
    rewrite !exists_after_download by done. exact Hd0.
  - simpl. by rewrite last_snoc.
Qed.

End Setup.

Lemma download_file_all_or_nothing_witness :
  SetupModels.exists_ "models/a.onnx" ToySetup.empty = false /\
  SetupModels.files
    (SetupModels.download_file ToySetup.world ToySetup.url1 "models/a.onnx"
       ToySetup.empty) !! "models/a.onnx" = Some [x01; x02; x03].
Proof.
  split; [reflexivity|].
  apply (download_file_all_or_nothing ToySetup.world ToySetup.url1
           "models/a.onnx" ToySetup.empty); [reflexivity|].
  exists ToySetup.good. repeat split; reflexivity.
Defined.

Lemma main_nothing_to_do_witness :
  SetupModels.requests
    (SetupModels.main ToySetup.world "models" ToySetup.stocked) = [] /\
  SetupModels.files
    (SetupModels.main ToySetup.world "models" ToySetup.stocked) =
  SetupModels.files ToySetup.stocked.
Proof.
  apply (main_nothing_to_do ToySetup.world "models" ToySetup.stocked);
    reflexivity.
Defined.

Lemma main_tries_both_witness :
  SetupModels.requests
    (SetupModels.main ToySetup.world "models" ToySetup.empty) =
  snd <$> SetupModels.MODELS.
Proof.
  apply (main_tries_both ToySetup.world "models" ToySetup.empty);
    [reflexivity|reflexivity|done|done|done].
Defined.
